(** * The address bar widget of qutebrowser/mainwindow/urlbar/urlbar.py

    A shallow embedding of [UrlBar]: the research trace ([add_log]), the
    page archiver and ranking scan ([dump_html], [getGoogleRanking]), the
    address entry ([on_press_enter]) and the URL display ([on_set_url],
    [on_load_status_changed], [_update_url], [set_hover_url]).

    Python exceptions are values of [exn]; a handler returns an [outcome]
    together with the state it left behind, so that the effects performed
    before a raise stay visible. *)

From Stdlib Require Import ZArith String Ascii List Bool Lia Sorted.
From stdpp Require Import base gmap strings pretty list fin_maps.

Local Open Scope Z_scope.

Set Warnings "-register-all".

(** ** Python values used by the widget *)

Inductive exn := IndexError | TypeError | AttributeError.

Inductive result (A : Type) :=
  | Ok (a : A)
  | Raise (e : exn).
Arguments Ok {A} a.
Arguments Raise {A} e.

Definition bind {A B : Type} (r : result A) (k : A -> result B) : result B :=
  match r with
  | Ok a => k a
  | Raise e => Raise e
  end.

Notation "'try' x := r 'in' k" := (bind r (fun x => k))
  (at level 10, x name, r at level 100, k at level 200).

(** [needle in hay] on two [str]: some slice of [hay] equals [needle]. *)
Fixpoint contains (needle hay : string) : bool :=
  String.prefix needle hay ||
  match hay with
  | EmptyString => false
  | String _ rest => contains needle rest
  end.

(** ** The document tree built by [BeautifulSoup(html, "html.parser")]

    The HTML text is represented by the tree the parser builds from it:
    text nodes and tags with a name, the attribute dict and the children in
    document order.  An attribute value is a [str], or a list of [str] for
    the multi-valued attributes such as [class]. *)

Inductive AttrValue :=
  | Str (s : string)
  | Multi (l : list string).

Inductive Node :=
  | Text (s : string)
  | Tag (name : string) (attrs : gmap string AttrValue) (children : list Node).

(** The children of the [BeautifulSoup] object itself. *)
Definition html := list Node.

Definition tag_name (n : Node) : option string :=
  match n with
  | Text _ => None
  | Tag name _ _ => Some name
  end.

(** [tag.get(key)] *)
Definition get (key : string) (n : Node) : option AttrValue :=
  match n with
  | Text _ => None
  | Tag _ attrs _ => attrs !! key
  end.

(** All tags below a node, in document order ([tag.descendants] without the
    strings). *)
Fixpoint descendants (n : Node) : list Node :=
  match n with
  | Text _ => []
  | Tag _ _ children =>
      flat_map (fun c => match c with
                         | Text _ => []
                         | Tag _ _ _ => c :: descendants c
                         end) children
  end.

Definition soup_descendants (soup : html) : list Node :=
  descendants (Tag "[document]" ∅ soup).

Definition has_name (name : string) (n : Node) : bool :=
  match tag_name n with
  | Some m => String.eqb m name
  | None => false
  end.

(** How bs4 matches one attribute value against a wanted string: a [str]
    by equality, a multi-valued attribute when one of its items, or the
    items joined by a space, equals it. *)
Definition join_space (l : list string) : string :=
  match l with
  | [] => ""
  | x :: xs => fold_left (fun acc y => acc +:+ " " +:+ y) xs x
  end.

Definition attr_matches (v : option AttrValue) (wanted : string) : bool :=
  match v with
  | None => false
  | Some (Str s) => String.eqb s wanted
  | Some (Multi l) =>
      existsb (fun item => String.eqb item wanted) l
      || String.eqb (join_space l) wanted
  end.

(** [tag.find_all(name)] *)
Definition find_all (name : string) (n : Node) : list Node :=
  filter (fun d => has_name name d = true) (descendants n).

(** [tag.find(name)] is not [None] *)
Definition find (name : string) (n : Node) : option Node :=
  head (find_all name n).

(** [tag.find("span", {"class", "csb"})]: the second argument is a set, so
    bs4 takes it as the list of accepted values of [class]. *)
Definition find_span_csb (n : Node) : option Node :=
  head (filter (fun d => (has_name "span" d
                          && (attr_matches (get "class" d) "class"
                              || attr_matches (get "class" d) "csb")) = true)
               (descendants n)).

(** [tag.text]: the strings below a tag, concatenated. *)
Fixpoint text (n : Node) : string :=
  match n with
  | Text s => s
  | Tag _ _ children => fold_right (fun c acc => text c +:+ acc) "" children
  end.

(** ** [getGoogleRanking]: the scan over the result headings *)

(** [<h3 class="LC20lb">] *)
Definition is_result_heading (n : Node) : bool :=
  has_name "h3" n && attr_matches (get "class" n) "LC20lb".

(** [soup.findAll("h3", {"class": "LC20lb"})], each heading paired with
    [t.find_parent('div')]: the nearest enclosing [div], met on the way
    down from the root. *)
Fixpoint findAll_h3 (parentdiv : option Node) (n : Node)
  : list (Node * option Node) :=
  match n with
  | Text _ => []
  | Tag name _ children =>
      (if is_result_heading n then [(n, parentdiv)] else [])
      ++ flat_map (findAll_h3 (if String.eqb name "div" then Some n
                               else parentdiv)) children
  end.

Definition result_headings (soup : html) : list (Node * option Node) :=
  flat_map (findAll_h3 None) soup.

(** [previous_url in value], with the operands as the scan has them: a
    fragment that may be [None] and the result of [.get('href')]. *)
Definition py_in (fragment : option string) (value : option AttrValue)
  : result bool :=
  match value with
  | None => Raise TypeError
  | Some (Str s) =>
      match fragment with
      | None => Raise TypeError
      | Some f => Ok (contains f s)
      end
  | Some (Multi l) =>
      match fragment with
      | None => Ok false
      | Some f => Ok (existsb (fun item => String.eqb item f) l)
      end
  end.

(** [links[0]] *)
Definition first_link (parentdiv : Node) : result Node :=
  match find_all "a" parentdiv with
  | [] => Raise IndexError
  | l0 :: _ => Ok l0
  end.

(** One pass of the [for t in ...] body on the pair (rank, found). *)
Definition scan_step (previous_url : option string) (acc : Z * Z)
    (t : Node * option Node) : result (Z * Z) :=
  let '(rank, found) := acc in
  match snd t with
  | None => Ok (rank, found)
  | Some parentdiv =>
      try l0 := first_link parentdiv in
      try hit := py_in previous_url (get "href" l0) in
      Ok (rank + 1, if hit then rank else found)
  end.

Fixpoint scan (previous_url : option string) (ts : list (Node * option Node))
    (acc : Z * Z) : result (Z * Z) :=
  match ts with
  | [] => Ok acc
  | t :: rest =>
      try acc' := scan_step previous_url acc t in
      scan previous_url rest acc'
  end.

(** [soup.find("div", {"id": "foot"})] *)
Definition find_footer (soup : html) : option Node :=
  head (filter (fun d => (has_name "div" d
                          && attr_matches (get "id" d) "foot") = true)
               (soup_descendants soup)).

(** The [for td in footer.find_all('td')] loop. *)
Definition page_step (page : string) (td : Node) : string :=
  match find_span_csb td, find "a" td with
  | Some _, None => if String.eqb (text td) "" then page else page +:+ text td
  | _, _ => page
  end.

Definition footer_page (footer : Node) : string :=
  fold_left page_step (find_all "td" footer) "".

(** What one scan reports: found-rank, total and page label. *)
Record RankingResult := mkRanking {
  found : Z;
  total : Z;
  page : string
}.

Definition ranking (previous_url : option string) (soup : html)
  : result RankingResult :=
  try acc := scan previous_url (result_headings soup) (1, -1) in
  Ok {| found := snd acc;
        total := fst acc - 1;
        page := match find_footer soup with
                | Some footer => footer_page footer
                | None => "?"
                end |}.

(** The payload of the RANK entry. *)
Definition rank_entry (r : RankingResult) : string :=
  "RANK;" +:+ pretty (found r) +:+ ";SUR:;" +:+ pretty (total r)
  +:+ ";PAGE;" +:+ page r.

(** ** The widget state *)

Module UrlType.
Inductive t := success | success_https | error | warn | hover | normal.
End UrlType.

(** [usertypes.LoadStatus] of the host application. *)
Module LoadStatus.
Inductive t := none | success | success_https | error | warn | loading.
End LoadStatus.

(** A [QUrl] as the widget observes it: [url.isValid()] and
    [urlutils.safe_display_string(url)]. *)
Record QUrl := mkQUrl {
  isValid : bool;
  safe_display_string : string
}.

(** A tab of the host, as [on_tab_changed] observes it:
    [tab.url(requested=True)]. *)
Record Tab := mkTab {
  requested_url : option QUrl
}.

(** The attributes of [UrlBar] that the handlers read and write, with the
    two files they touch: [files] is the disk by path, [trace] the
    [logtext] of the lines appended to trace.txt since construction (the
    elapsed-time column comes from the wall clock and is left out), and
    [url] is [self.url.text()]. *)
Record UrlBar := mkUrlBar {
  files : gmap string html;
  trace : list string;
  START_TIME : Z;
  ignore_first_load : bool;
  last_html : option html;
  previous_url : option string;
  _urltype : option UrlType.t;
  _hover_url : option string;
  _normal_url : option string;
  _normal_url_type : UrlType.t;
  url : string;
  cur_tab : option Tab
}.

Definition with_files (st : UrlBar) (v : gmap string html) : UrlBar :=
  mkUrlBar v (trace st) (START_TIME st) (ignore_first_load st) (last_html st)
    (previous_url st) (_urltype st) (_hover_url st) (_normal_url st)
    (_normal_url_type st) (url st) (cur_tab st).

Definition with_trace (st : UrlBar) (v : list string) : UrlBar :=
  mkUrlBar (files st) v (START_TIME st) (ignore_first_load st) (last_html st)
    (previous_url st) (_urltype st) (_hover_url st) (_normal_url st)
    (_normal_url_type st) (url st) (cur_tab st).

Definition with_ignore_first_load (st : UrlBar) (v : bool) : UrlBar :=
  mkUrlBar (files st) (trace st) (START_TIME st) v (last_html st)
    (previous_url st) (_urltype st) (_hover_url st) (_normal_url st)
    (_normal_url_type st) (url st) (cur_tab st).

Definition with_last_html (st : UrlBar) (v : option html) : UrlBar :=
  mkUrlBar (files st) (trace st) (START_TIME st) (ignore_first_load st) v
    (previous_url st) (_urltype st) (_hover_url st) (_normal_url st)
    (_normal_url_type st) (url st) (cur_tab st).

Definition with_previous_url (st : UrlBar) (v : option string) : UrlBar :=
  mkUrlBar (files st) (trace st) (START_TIME st) (ignore_first_load st)
    (last_html st) v (_urltype st) (_hover_url st) (_normal_url st)
    (_normal_url_type st) (url st) (cur_tab st).

Definition with_hover_url (st : UrlBar) (v : option string) : UrlBar :=
  mkUrlBar (files st) (trace st) (START_TIME st) (ignore_first_load st)
    (last_html st) (previous_url st) (_urltype st) v (_normal_url st)
    (_normal_url_type st) (url st) (cur_tab st).

Definition with_normal_url (st : UrlBar) (v : option string) : UrlBar :=
  mkUrlBar (files st) (trace st) (START_TIME st) (ignore_first_load st)
    (last_html st) (previous_url st) (_urltype st) (_hover_url st) v
    (_normal_url_type st) (url st) (cur_tab st).

Definition with_normal_url_type (st : UrlBar) (v : UrlType.t) : UrlBar :=
  mkUrlBar (files st) (trace st) (START_TIME st) (ignore_first_load st)
    (last_html st) (previous_url st) (_urltype st) (_hover_url st)
    (_normal_url st) v (url st) (cur_tab st).

(** [self.url.setText(text); self._urltype = ty] *)
Definition with_display (st : UrlBar) (text : string) (ty : UrlType.t)
  : UrlBar :=
  mkUrlBar (files st) (trace st) (START_TIME st) (ignore_first_load st)
    (last_html st) (previous_url st) (Some ty) (_hover_url st)
    (_normal_url st) (_normal_url_type st) text (cur_tab st).

(** The user edits the address field. *)
Definition with_url (st : UrlBar) (text : string) : UrlBar :=
  mkUrlBar (files st) (trace st) (START_TIME st) (ignore_first_load st)
    (last_html st) (previous_url st) (_urltype st) (_hover_url st)
    (_normal_url st) (_normal_url_type st) text (cur_tab st).

Definition with_cur_tab (st : UrlBar) (v : option Tab) : UrlBar :=
  mkUrlBar (files st) (trace st) (START_TIME st) (ignore_first_load st)
    (last_html st) (previous_url st) (_urltype st) (_hover_url st)
    (_normal_url st) (_normal_url_type st) (url st) v.

(** ** [add_log] and [__init__] *)

Definition add_log (st : UrlBar) (logtext : string) : UrlBar :=
  if START_TIME st =? 0 then st
  else with_trace st (trace st ++ [logtext]).

(** The attributes set by [__init__]: [now] is the reading of
    [time.time()], [start] the formatted start time and [disk] the files
    that exist when the widget is built. *)
Definition init (now : Z) (start : string) (disk : gmap string html)
  : UrlBar :=
  add_log
    {| files := disk; trace := []; START_TIME := now;
       ignore_first_load := true; last_html := None; previous_url := None;
       _urltype := None; _hover_url := None; _normal_url := None;
       _normal_url_type := UrlType.normal; url := ""; cur_tab := None |}
    ("START;" +:+ start).

(** ** [on_press_enter] *)

(** Lines 192-201: the string handed to [QUrl(url)] for loading. *)
Definition resolve_entry (entered : string) : string :=
  if contains "." entered
     && (negb (contains "http://" entered)
         && negb (contains "https://" entered))
  then "http://" +:+ entered
  else if negb (contains "." entered)
       then "http://www.google.com/search?q=" +:+ entered
       else entered.

(** The state after the handler and the URL passed to [load_url]. *)
Definition on_press_enter (st : UrlBar) : UrlBar * string :=
  (add_log st ("SAISIE_BARREADRESSE;" +:+ url st), resolve_entry (url st)).

(** ** [on_load_started] *)

Definition on_load_started (st : UrlBar) : UrlBar :=
  if ignore_first_load st then with_ignore_first_load st false
  else add_log st "LOAD STARTED".

(** ** The URL display *)

(** [self.url.text() != self.previous_url] *)
Definition differs (text : string) (previous : option string) : bool :=
  match previous with
  | None => true
  | Some p => negb (String.eqb text p)
  end.

Definition _update_url (st : UrlBar) : UrlBar :=
  let st1 :=
    match _normal_url st with
    | Some u => with_display st u (_normal_url_type st)
    | None => with_display st "" UrlType.normal
    end in
  if differs (url st1) (previous_url st1)
  then add_log (with_previous_url st1 (Some (url st1)))
               ("URL_CHANGED;" +:+ url st1)
  else st1.

Definition on_set_url (st : UrlBar) (u : option QUrl) : UrlBar :=
  let st1 :=
    match u with
    | None => with_normal_url st None
    | Some q =>
        if isValid q then with_normal_url st (Some (safe_display_string q))
        else with_normal_url st (Some "Invalid URL!")
    end in
  _update_url (with_normal_url_type st1 UrlType.normal).

Definition on_tab_changed (st : UrlBar) (tab : Tab) : UrlBar :=
  on_set_url (with_cur_tab st (Some tab)) (requested_url tab).

(** [UrlType[status.name]] for the four statuses the handler lists. *)
Definition on_load_status_changed (st : UrlBar) (status : LoadStatus.t)
  : UrlBar :=
  let ty :=
    match status with
    | LoadStatus.success => UrlType.success
    | LoadStatus.success_https => UrlType.success_https
    | LoadStatus.error => UrlType.error
    | LoadStatus.warn => UrlType.warn
    | _ => UrlType.normal
    end in
  _update_url (with_normal_url_type st ty).

(** ** The search box *)

Definition on_request_search (st : UrlBar) : UrlBar :=
  add_log st "AFFICHE_BARRERECHERCHE;".

(** [txt] is [self.searchedit.text()] when the handler runs. *)
Definition on_search (st : UrlBar) (txt : string) : UrlBar :=
  if String.eqb txt "" then st
  else add_log st ("LANCERECHERCHE_BARRERECHERCHE;" +:+ txt).

Definition on_search_next (st : UrlBar) (txt : string) : UrlBar :=
  if String.eqb txt "" then st
  else add_log st ("LANCERECHERCHE_BARRERECHERCHE_SUIVANT;" +:+ txt).

Definition on_search_previous (st : UrlBar) (txt : string) : UrlBar :=
  if String.eqb txt "" then st
  else add_log st ("LANCERECHERCHE_BARRERECHERCHE_PRECEDENT;" +:+ txt).

(** ** [getGoogleRanking] *)

(** The fragment is [self.previous_url]; a raise leaves the trace as it
    was, the entry being written after the scan. *)
Definition getGoogleRanking (st : UrlBar) (h : option html) : result UrlBar :=
  match h with
  | None => Ok st
  | Some soup =>
      try r := ranking (previous_url st) soup in
      Ok (add_log st (rank_entry r))
  end.

(** ** [dump_html] and [set_hover_url] *)

(** [os.path.join(a, b)] for a directory name [a] that is not empty and
    does not end in a slash. *)
Definition os_path_join (a b : string) : string :=
  match b with
  | String "/"%char _ => b
  | _ => a +:+ "/" +:+ b
  end.

Inductive outcome :=
  | Returned
  | Raised (e : exn).

Section Widget.

(** The module constant [TODAY] and the constructor [QUrl(link)]. *)
Variable TODAY : string.
Variable to_QUrl : string -> QUrl.

Definition capture_name (id : nat) : string :=
  TODAY +:+ "-" +:+ pretty id +:+ ".html".

Definition capture_path (id : nat) : string :=
  os_path_join "sauvegarde_pages" (capture_name id).

(** The [while os.path.exists(...)] loop, [fuel] passes of it at most;
    [None] when they do not suffice. *)
Fixpoint probe (disk : gmap string html) (fuel : nat) (id : nat)
  : option nat :=
  match fuel with
  | O => None
  | S fuel' =>
      match disk !! capture_path id with
      | Some _ => probe disk fuel' (S id)
      | None => Some id
      end
  end.

(** The loop, with one pass more than the disk has files: each pass that
    goes on has met one more of them. *)
Definition first_free_id (disk : gmap string html) : option nat :=
  probe disk (S (size disk)) 0%nat.

Definition dump_html (st : UrlBar) (h : html) : option (outcome * UrlBar) :=
  match first_free_id (files st) with
  | None => None
  | Some id =>
      let st1 := with_files st (<[capture_path id := h]> (files st)) in
      let st2 := add_log st1 ("LOAD_FINISHED;" +:+ capture_name id +:+ ";"
                              +:+ url st1) in
      match getGoogleRanking st2 (last_html st2) with
      | Ok st3 => Some (Returned, with_last_html st3 (Some h))
      | Raise e => Some (Raised e, st2)
      end
  end.

Definition set_hover_url (st : UrlBar) (link : string) : UrlBar :=
  let st1 := add_log st ("LINK_HOVERED;" +:+ link) in
  if String.eqb link "" then with_hover_url st1 None
  else
    let qurl := to_QUrl link in
    if isValid qurl
    then with_hover_url st1 (Some (safe_display_string qurl))
    else with_hover_url st1 (Some ("(invalid URL!) " +:+ link)).

(** ** The events the host delivers *)

Inductive Event :=
  | TabChanged (tab : Tab)
  | SetUrl (u : option QUrl)
  | LoadStatusChanged (status : LoadStatus.t)
  | LoadStarted
  | LoadFinished (h : html)
  | Hover (link : string)
  | Edit (entered : string)
  | PressEnter
  | RequestSearch
  | Search (txt : string)
  | SearchNext (txt : string)
  | SearchPrevious (txt : string).

(** [self.cur_tab.dump_async(self.dump_html)]: the tab calls [dump_html]
    with the rendered page [h]; without tab the attribute access raises. *)
Definition on_load_finished (st : UrlBar) (h : html)
  : option (outcome * UrlBar) :=
  match cur_tab st with
  | None => Some (Raised AttributeError, st)
  | Some _ => dump_html st h
  end.

Definition handle (ev : Event) (st : UrlBar) : option (outcome * UrlBar) :=
  match ev with
  | TabChanged tab => Some (Returned, on_tab_changed st tab)
  | SetUrl u => Some (Returned, on_set_url st u)
  | LoadStatusChanged status =>
      Some (Returned, on_load_status_changed st status)
  | LoadStarted => Some (Returned, on_load_started st)
  | LoadFinished h => on_load_finished st h
  | Hover link => Some (Returned, set_hover_url st link)
  | Edit entered => Some (Returned, with_url st entered)
  | PressEnter => Some (Returned, fst (on_press_enter st))
  | RequestSearch => Some (Returned, on_request_search st)
  | Search txt => Some (Returned, on_search st txt)
  | SearchNext txt => Some (Returned, on_search_next st txt)
  | SearchPrevious txt => Some (Returned, on_search_previous st txt)
  end.

(** The ids chosen by successive calls of [dump_html]. *)
Fixpoint dump_all (st : UrlBar) (pages : list html)
  : option (list nat * UrlBar) :=
  match pages with
  | [] => Some ([], st)
  | h :: rest =>
      match first_free_id (files st), dump_html st h with
      | Some id, Some (_, st') =>
          match dump_all st' rest with
          | Some (ids, st'') => Some (id :: ids, st'')
          | None => None
          end
      | _, _ => None
      end
  end.

End Widget.

(** ** Vocabulary of the properties *)

(** The address starts with one of the two schemes. *)
Definition scheme_prefixed (s : string) : bool :=
  String.prefix "http://" s || String.prefix "https://" s.

(** The result blocks of a page: the enclosing [div] of each result
    heading that has one, in document order. *)
Definition blocks (soup : html) : list Node :=
  omap snd (result_headings soup).

(** The block's first hyperlink carries an address. *)
Definition has_address (parentdiv : Node) : bool :=
  match find_all "a" parentdiv with
  | l0 :: _ => match get "href" l0 with
               | Some (Str _) => true
               | _ => false
               end
  | [] => false
  end.

(** The address of the block's first hyperlink contains the fragment. *)
Definition href_contains (fragment : string) (parentdiv : Node) : bool :=
  match find_all "a" parentdiv with
  | l0 :: _ => match get "href" l0 with
               | Some (Str s) => contains fragment s
               | _ => false
               end
  | [] => false
  end.

(** What follows [p] in [s], when [s] starts with [p]. *)
Fixpoint strip_prefix (p s : string) : option string :=
  match p with
  | EmptyString => Some s
  | String a p' =>
      match s with
      | EmptyString => None
      | String b s' => if Ascii.eqb a b then strip_prefix p' s' else None
      end
  end.

(** The text of the last URL_CHANGED entry of a trace. *)
Definition last_url_changed (tr : list string) : option string :=
  last (omap (strip_prefix "URL_CHANGED;") tr).

(** The entries of a trace written by [on_load_started] and by
    [dump_html]. *)
Definition count_load_started (tr : list string) : nat :=
  length (List.filter (fun e => String.eqb e "LOAD STARTED") tr).

Definition starts_with (p s : string) : bool :=
  match strip_prefix p s with
  | Some _ => true
  | None => false
  end.

Definition count_load_finished (tr : list string) : nat :=
  length (List.filter (starts_with "LOAD_FINISHED;") tr).

(** The display updates: the three handlers that end in [_update_url]. *)
Inductive DisplayUpdate :=
  | ShowTab (tab : Tab)
  | ShowUrl (u : option QUrl)
  | ShowStatus (status : LoadStatus.t).

Definition display (st : UrlBar) (d : DisplayUpdate) : UrlBar :=
  match d with
  | ShowTab tab => on_tab_changed st tab
  | ShowUrl u => on_set_url st u
  | ShowStatus status => on_load_status_changed st status
  end.

Definition display_all (ds : list DisplayUpdate) (st : UrlBar) : UrlBar :=
  fold_left display ds st.

(** The text rendered by each update of a sequence. *)
Fixpoint rendered (ds : list DisplayUpdate) (st : UrlBar) : list string :=
  match ds with
  | [] => []
  | d :: rest => url (display st d) :: rendered rest (display st d)
  end.

(** The texts of a list that differ from the one before them, [shown]
    being the one before the first. *)
Fixpoint changes (shown : option string) (texts : list string)
  : list string :=
  match texts with
  | [] => []
  | t :: rest =>
      if differs t shown then t :: changes (Some t) rest
      else changes (Some t) rest
  end.

(** The text [_update_url] puts in the field. *)
Definition normal_text (st : UrlBar) : string :=
  match _normal_url st with
  | Some u => u
  | None => ""
  end.

(** The text [on_set_url] stores for a URL, and the text a display update
    renders. *)
Definition url_text (u : option QUrl) : string :=
  match u with
  | None => ""
  | Some q => if isValid q then safe_display_string q else "Invalid URL!"
  end.

Definition update_text (st : UrlBar) (d : DisplayUpdate) : string :=
  match d with
  | ShowTab tab => url_text (requested_url tab)
  | ShowUrl u => url_text u
  | ShowStatus _ => normal_text st
  end.

Section Runs.

Variable TODAY : string.
Variable to_QUrl : string -> QUrl.

(** The handlers run one after the other, whatever their outcome. *)
Fixpoint run (evs : list Event) (st : UrlBar) : option UrlBar :=
  match evs with
  | [] => Some st
  | ev :: rest =>
      match handle TODAY to_QUrl ev st with
      | Some (_, st') => run rest st'
      | None => None
      end
  end.

Definition is_load_started (ev : Event) : bool :=
  match ev with LoadStarted => true | _ => false end.

Definition is_load_finished (ev : Event) : bool :=
  match ev with LoadFinished _ => true | _ => false end.

(** The URL an event sets, if it sets one. *)
Definition url_set (ev : Event) : option (option QUrl) :=
  match ev with
  | TabChanged tab => Some (requested_url tab)
  | SetUrl u => Some u
  | _ => None
  end.

Definition has_tab (st : UrlBar) : bool :=
  match cur_tab st with
  | Some _ => true
  | None => false
  end.

(** The events of a run that come after its first tab change. *)
Fixpoint after_tab (evs : list Event) : list Event :=
  match evs with
  | [] => []
  | TabChanged _ :: rest => rest
  | _ :: rest => after_tab rest
  end.

Definition count_events (p : Event -> bool) (evs : list Event) : nat :=
  length (List.filter p evs).

(** The page of the last load-finished event that found a tab, [tab]
    telling whether there is one at the start and [prev] being the page
    before the events. *)
Fixpoint last_page (tab : bool) (prev : option html) (evs : list Event)
  : option html :=
  match evs with
  | [] => prev
  | TabChanged _ :: rest => last_page true prev rest
  | LoadFinished h :: rest =>
      last_page tab (if tab then Some h else prev) rest
  | _ :: rest => last_page tab prev rest
  end.

(** The scan of a page raises, whatever string the fragment is. *)
Definition scan_fails (soup : html) : Prop :=
  exists e, forall f, ranking (Some f) soup = Raise e.

(** What holds of the stored page between two loads: once there is a tab
    the fragment is a string, and the stored page is the page [prev] of
    the last load, unless a scan has raised, and then it is a page on which
    every scan raises. *)
Definition load_invariant (st : UrlBar) (prev : option html) : Prop :=
  (has_tab st = true -> previous_url st <> None)
  /\ (last_html st = prev
      \/ exists bad, last_html st = Some bad /\ scan_fails bad).


End Runs.

(** ** Sample pages *)

(** [<h3 class="LC20lb">title</h3>] *)
Definition heading : Node :=
  Tag "h3" {[ "class" := Multi ["LC20lb"] ]} [Text "title"].

(** [<div><a href=address><h3 class="LC20lb">title</h3></a></div>] *)
Definition result_block (address : string) : Node :=
  Tag "div" ∅ [Tag "a" {[ "href" := Str address ]} [heading]].

(** [<div><h3 class="LC20lb">title</h3></div>] *)
Definition result_without_link : Node :=
  Tag "div" ∅ [heading].

Definition three_results : html :=
  [result_block "http://a.org/"; result_block "http://b.org/x";
   result_block "http://c.org/"].

(** A day, a host that accepts every link and displays it as it is, and a
    widget built on a given disk. *)
Definition sample_day : string := "04-11-2026".

Definition sample_QUrl (link : string) : QUrl := mkQUrl true link.

Definition fresh_widget (disk : gmap string html) : UrlBar :=
  init 1000 "2026-11-04 10:00" disk.

(** ** Further vocabulary *)

(** The block's first hyperlink has an [href] attribute. *)
Definition has_href (parentdiv : Node) : bool :=
  match find_all "a" parentdiv with
  | l0 :: _ => match get "href" l0 with
               | Some _ => true
               | None => false
               end
  | [] => false
  end.



(** The texts of the URL_CHANGED entries of a trace, in order. *)
Definition url_changes (tr : list string) : list string :=
  omap (strip_prefix "URL_CHANGED;") tr.

(** No element of the list equals the one after it. *)
Definition adjacent_distinct (l : list string) : Prop :=
  forall (i : nat) x y, l !! i = Some x -> l !! S i = Some y -> x <> y.

(** The classification [_update_url] gives the field. *)
Definition class_of (st : UrlBar) : UrlType.t :=
  match _normal_url st with
  | Some _ => _normal_url_type st
  | None => UrlType.normal
  end.

(** What [on_set_url] stores for a URL. *)
Definition stored_url (u : option QUrl) : option string :=
  match u with
  | None => None
  | Some q => Some (url_text (Some q))
  end.

(** The URL type of a load status. *)
Definition status_type (status : LoadStatus.t) : UrlType.t :=
  match status with
  | LoadStatus.success => UrlType.success
  | LoadStatus.success_https => UrlType.success_https
  | LoadStatus.error => UrlType.error
  | LoadStatus.warn => UrlType.warn
  | _ => UrlType.normal
  end.

(** What [set_hover_url] stores for a link. *)
Definition hover_text (to_QUrl : string -> QUrl) (link : string)
  : option string :=
  if String.eqb link "" then None
  else if isValid (to_QUrl link)
       then Some (safe_display_string (to_QUrl link))
       else Some ("(invalid URL!) " +:+ link).

Definition is_display (ev : Event) : bool :=
  match ev with
  | TabChanged _ | SetUrl _ | LoadStatusChanged _ => true
  | _ => false
  end.


(** The link of the last hover event of a run. *)
Definition last_hover (evs : list Event) : option string :=
  last (omap (fun ev => match ev with Hover link => Some link | _ => None end)
             evs).

Definition is_tab_changed (ev : Event) : bool :=
  match ev with TabChanged _ => true | _ => false end.


(** The entries of a trace that start with a tag. *)
Definition count_tag (tag : string) (tr : list string) : nat :=
  length (List.filter (starts_with tag) tr).

Definition is_press_enter (ev : Event) : bool :=
  match ev with PressEnter => true | _ => false end.

Definition is_hover (ev : Event) : bool :=
  match ev with Hover _ => true | _ => false end.

Definition is_request_search (ev : Event) : bool :=
  match ev with RequestSearch => true | _ => false end.

(** A search event with some text in the search field. *)
Definition is_search (ev : Event) : bool :=
  match ev with
  | Search txt | SearchNext txt | SearchPrevious txt =>
      negb (String.eqb txt "")
  | _ => false
  end.

(** Every RANK entry of a trace comes right after a LOAD_FINISHED entry,
    [after_load] telling whether the entry before the trace is one. *)
Fixpoint rank_after_load (after_load : bool) (tr : list string) : bool :=
  match tr with
  | [] => true
  | e :: rest =>
      (negb (starts_with "RANK;" e) || after_load)
      && rank_after_load (starts_with "LOAD_FINISHED;" e) rest
  end.

(** ** Substrings *)

Local Arguments String.append !_ _ /.

Lemma prefix_app (n h : string) :
  String.prefix n h = true <-> exists b, h = n +:+ b.
Proof.
  revert h. induction n as [|c n IH]; intros h; simpl.
  - destruct h; simpl; split; eauto.
  - destruct h as [|c' h]; simpl.
    + split; [discriminate | intros [b Hb]; discriminate].
    + destruct (ascii_dec c c') as [->|Hne].
      * rewrite IH. split; intros [b Hb]; exists b; simpl in *; congruence.
      * split; [discriminate | intros [b Hb]; simpl in Hb; congruence].
Qed.

Lemma contains_nil (n : string) : contains n "" = String.prefix n "".
Proof. apply orb_false_r. Qed.

Lemma contains_cons (n : string) (c : ascii) (h : string) :
  contains n (String c h) = String.prefix n (String c h) || contains n h.
Proof. reflexivity. Qed.

(** [contains] is the substring relation. *)
Lemma contains_app (n h : string) :
  contains n h = true <-> exists a b, h = a +:+ n +:+ b.
Proof.
  induction h as [|c h IH]; [rewrite contains_nil | rewrite contains_cons].
  - rewrite prefix_app. split.
    + intros [b Hb]. exists "", b. exact Hb.
    + intros [a [b Hb]]. destruct a; simpl in Hb; [eauto | discriminate].
  - rewrite orb_true_iff, prefix_app, IH. split.
    + intros [[b Hb] | [a [b Hb]]].
      * exists "", b. exact Hb.
      * exists (String c a), b. simpl. congruence.
    + intros [a [b Hb]]. destruct a as [|c' a]; simpl in Hb.
      * left. eauto.
      * right. exists a, b. congruence.
Qed.


Lemma contains_prepend (n a h : string) :
  contains n h = true -> contains n (a +:+ h) = true.
Proof.
  rewrite !contains_app. intros [x [y ->]]. exists (a +:+ x), y.
  induction a; simpl; congruence.
Qed.

Lemma contains_prefix (n h : string) :
  String.prefix n h = true -> contains n h = true.
Proof.
  rewrite prefix_app, contains_app. intros [b ->]. exists "", b. reflexivity.
Qed.

(** ** Address entry *)

Lemma resolve_entry_has_dot (s : string) :
  contains "." (resolve_entry s) = true.
Proof.
  unfold resolve_entry. destruct (contains "." s) eqn:Hdot.
  - destruct (negb _ && negb _); simpl; [|exact Hdot].
    apply (contains_prepend "." "http://"), Hdot.
  - reflexivity.
Qed.

Lemma resolve_entry_has_scheme (s : string) :
  contains "http://" (resolve_entry s) = true
  \/ contains "https://" (resolve_entry s) = true.
Proof.
  unfold resolve_entry. destruct (contains "." s) eqn:Hdot.
  - destruct (contains "http://" s) eqn:H1; [left; exact H1|].
    destruct (contains "https://" s) eqn:H2; [right; exact H2|].
    left. apply contains_app. exists "", s. reflexivity.
  - left. apply contains_app.
    exists "", ("www.google.com/search?q=" +:+ s). reflexivity.
Qed.

Lemma resolve_entry_fixed (s : string) :
  contains "." s = true ->
  contains "http://" s = true \/ contains "https://" s = true ->
  resolve_entry s = s.
Proof.
  intros Hdot Hs. unfold resolve_entry. rewrite Hdot.
  destruct Hs as [-> | ->]; simpl; [reflexivity|].
  rewrite andb_false_r. reflexivity.
Qed.

(** C8, as the code has it: an entry without "." becomes the search query
    (also when it starts with a scheme); an entry with "." and with neither
    "http://" nor "https://" anywhere in it gets "http://" in front; an
    entry with "." and one of the two schemes, in front or anywhere else,
    is loaded unchanged; resolving a resolved entry changes nothing. *)
Theorem resolve_entry_classification (s : string) :
  (contains "." s = false ->
   resolve_entry s = "http://www.google.com/search?q=" +:+ s)
  /\ (contains "." s = true -> contains "http://" s = false ->
      contains "https://" s = false -> resolve_entry s = "http://" +:+ s)
  /\ (contains "." s = true -> scheme_prefixed s = true ->
      resolve_entry s = s)
  /\ (contains "." s = true ->
      contains "http://" s = true \/ contains "https://" s = true ->
      resolve_entry s = s)
  /\ resolve_entry (resolve_entry s) = resolve_entry s.
Proof.
  split; [|split; [|split; [|split]]].
  - intros Hdot. unfold resolve_entry. rewrite Hdot. reflexivity.
  - intros Hdot H1 H2. unfold resolve_entry. rewrite Hdot, H1, H2. reflexivity.
  - intros Hdot Hp. apply resolve_entry_fixed; [exact Hdot|].
    unfold scheme_prefixed in Hp. apply orb_true_iff in Hp.
    destruct Hp as [Hp | Hp]; [left | right]; apply contains_prefix, Hp.
  - apply resolve_entry_fixed.
  - apply resolve_entry_fixed.
    + apply resolve_entry_has_dot.
    + apply resolve_entry_has_scheme.
Qed.

Lemma resolve_entry_classification_witness :
  resolve_entry "qutebrowser" = "http://www.google.com/search?q=qutebrowser"
  /\ resolve_entry "example.com" = "http://example.com"
  /\ resolve_entry "https://example.com" = "https://example.com".
Proof.
  split; [|split].
  - destruct (resolve_entry_classification "qutebrowser") as [H _].
    apply H. reflexivity.
  - destruct (resolve_entry_classification "example.com") as [_ [H _]].
    apply H; reflexivity.
  - destruct (resolve_entry_classification "https://example.com")
      as [_ [_ [H _]]].
    apply H; reflexivity.
Defined.

(** C8 as stated fails twice: an entry that starts with a scheme and has no
    "." is turned into a search query, and an entry with "." that has a
    scheme further on, not in front, gets no "http://" prefix. *)
Lemma resolve_entry_scheme_counterexample :
  (scheme_prefixed "http://localhost" = true
   /\ resolve_entry "http://localhost" <> "http://localhost")
  /\ (contains "." "a.b/?u=http://c" = true
      /\ scheme_prefixed "a.b/?u=http://c" = false
      /\ resolve_entry "a.b/?u=http://c" <> "http://" +:+ "a.b/?u=http://c").
Proof. repeat split; discriminate. Qed.

(** ** The ranking scan *)

Lemma scan_step_no_div previous_url acc t :
  snd t = None -> scan_step previous_url acc t = Ok acc.
Proof. intros H. unfold scan_step. destruct acc. rewrite H. reflexivity. Qed.

Lemma scan_step_block fragment rank found0 t d :
  snd t = Some d -> has_address d = true ->
  scan_step (Some fragment) (rank, found0) t
  = Ok (rank + 1, if href_contains fragment d then rank else found0).
Proof.
  intros Ht Hd. unfold scan_step, first_link, has_address, href_contains in *.
  rewrite Ht. destruct (find_all "a" d) as [|l0 ?]; [discriminate|]. simpl.
  destruct (get "href" l0) as [[s|ms]|]; try discriminate. reflexivity.
Qed.

Lemma scan_cons previous_url t ts acc :
  scan previous_url (t :: ts) acc
  = bind (scan_step previous_url acc t) (scan previous_url ts).
Proof. reflexivity. Qed.

(** The scan over blocks that all have an address: the counter advances
    by the number of blocks, and the found-rank is the counter value of the
    last block whose address contains the fragment. *)
Lemma scan_blocks fragment ts : forall rank found0,
  Forall (fun d => has_address d = true) (omap snd ts) ->
  exists found',
    scan (Some fragment) ts (rank, found0)
    = Ok (rank + Z.of_nat (length (omap snd ts)), found')
    /\ ((found' = found0
         /\ forall d, d ∈ omap snd ts -> href_contains fragment d = false)
        \/ exists (i : nat) d,
             omap snd ts !! i = Some d
             /\ href_contains fragment d = true
             /\ found' = rank + Z.of_nat i
             /\ forall (j : nat) d', (i < j)%nat ->
                  omap snd ts !! j = Some d' ->
                  href_contains fragment d' = false).
Proof.
  induction ts as [|t ts IH]; intros rank found0 Hok.
  - exists found0. simpl. rewrite Z.add_0_r. split; [reflexivity|].
    left. split; [reflexivity|]. intros d Hd. inversion Hd.
  - destruct (snd t) as [d|] eqn:Ht.
    + assert (Hcons : omap snd (t :: ts) = d :: omap snd ts)
        by (simpl; rewrite Ht; reflexivity).
      rewrite Hcons in *. apply Forall_cons in Hok as [Hd Hrest].
      destruct (IH (rank + 1)
                  (if href_contains fragment d then rank else found0) Hrest)
        as [found' [Hscan Hfound]].
      exists found'. split.
      * rewrite scan_cons, (scan_step_block _ _ _ _ d Ht Hd). simpl bind.
        rewrite Hscan. f_equal. f_equal.
        change (length (d :: omap snd ts)) with (S (length (omap snd ts))).
        lia.
      * destruct Hfound as [[Heq Hnone] | [i [d' [Hi [Hm [Heq Hlater]]]]]].
        -- destruct (href_contains fragment d) eqn:Hhit.
           ++ right. exists 0%nat, d. repeat split; [exact Hhit | lia |].
              intros [|j] d' Hj Hl; [lia|]. simpl in Hl.
              apply Hnone. eapply list_elem_of_lookup_2, Hl.
           ++ left. split; [exact Heq|]. intros d' Hd'.
              apply elem_of_cons in Hd' as [-> | Hd']; [exact Hhit | auto].
        -- right. exists (S i), d'. repeat split; [exact Hi | exact Hm | lia |].
           intros [|j] d'' Hj Hl; [lia|]. simpl in Hl.
           apply (Hlater j d''); [lia | exact Hl].
    + assert (Hcons : omap snd (t :: ts) = omap snd ts)
        by (simpl; rewrite Ht; reflexivity).
      rewrite Hcons in *.
      destruct (IH rank found0 Hok) as [found' [Hscan Hfound]].
      exists found'. split; [|exact Hfound].
      rewrite scan_cons, (scan_step_no_div _ _ _ Ht). exact Hscan.
Qed.

(** C1, as the code has it: on a page whose result blocks all have a first
    hyperlink with an address, the scan returns; the total is the number of
    result headings that have an enclosing [div] (a heading outside every
    [div] is passed over and not counted); the found-rank is the sentinel
    -1 exactly when no block's first address contains the fragment, and
    otherwise the 1-based position of the last block whose first address
    contains it; with three blocks of which only the second matches it is
    2 out of 3. *)
Theorem ranking_found_rank (fragment : string) (soup : html) :
  Forall (fun d => has_address d = true) (blocks soup) ->
  exists r,
    ranking (Some fragment) soup = Ok r
    /\ total r = Z.of_nat (length (blocks soup))
    /\ (found r = -1 <->
        forall d, d ∈ blocks soup -> href_contains fragment d = false)
    /\ (found r <> -1 ->
        exists (i : nat) d,
          blocks soup !! i = Some d
          /\ href_contains fragment d = true
          /\ found r = Z.of_nat i + 1
          /\ forall (j : nat) d', (i < j)%nat -> blocks soup !! j = Some d' ->
               href_contains fragment d' = false)
    /\ (forall d1 d2 d3,
          blocks soup = [d1; d2; d3] ->
          href_contains fragment d1 = false ->
          href_contains fragment d2 = true ->
          href_contains fragment d3 = false ->
          found r = 2 /\ total r = 3).
Proof.
  intros Hok. unfold blocks in *.
  destruct (scan_blocks fragment (result_headings soup) 1 (-1) Hok)
    as [found' [Hscan Hfound]].
  eexists. split; [unfold ranking; rewrite Hscan; reflexivity|]. simpl.
  assert (Hrank : forall (i : nat) d,
             omap snd (result_headings soup) !! i = Some d ->
             href_contains fragment d = true -> found' = 1 + Z.of_nat i ->
             found' <> -1) by (intros; lia).
  split; [lia|]. split; [|split].
  - destruct Hfound as [[Heq Hnone] | [i [d [Hi [Hm [Heq _]]]]]].
    + split; [intros _; exact Hnone | intros _; exact Heq].
    + split; [intros Hneg; lia|]. intros Hnone.
      rewrite (Hnone d (list_elem_of_lookup_2 _ _ _ Hi)) in Hm. discriminate.
  - intros Hne.
    destruct Hfound as [[Heq _] | [i [d [Hi [Hm [Heq Hlater]]]]]]; [lia|].
    exists i, d. repeat split; [exact Hi | exact Hm | lia | exact Hlater].
  - intros d1 d2 d3 Hb H1 H2 H3. rewrite Hb in *. simpl. split; [|lia].
    destruct Hfound as [[_ Hnone] | [i [d [Hi [Hm [Heq _]]]]]].
    + rewrite (Hnone d2) in H2; [discriminate|].
      apply elem_of_cons. right. apply elem_of_cons. left. reflexivity.
    + destruct i as [|[|[|i]]]; simpl in Hi; try discriminate;
        injection Hi as <-; try congruence. lia.
Qed.

Lemma ranking_found_rank_witness :
  exists r,
    ranking (Some "b.org") three_results = Ok r
    /\ found r = 2 /\ total r = 3.
Proof.
  destruct (ranking_found_rank "b.org" three_results)
    as [r [Hr [_ [_ [_ H3]]]]].
  - vm_compute. repeat constructor.
  - exists r. split; [exact Hr|].
    apply (H3 (result_block "http://a.org/") (result_block "http://b.org/x")
              (result_block "http://c.org/")); reflexivity.
Defined.

(** C1 as stated fails on a page with a result heading outside every
    [div]: two result headings are met, the second one's link contains the
    fragment, and the scan reports rank 1 out of 1. *)
Lemma ranking_skips_heading_outside_div :
  length (result_headings [heading; result_block "http://a.org/"]) = 2%nat
  /\ ranking (Some "a.org") [heading; result_block "http://a.org/"]
     = Ok {| found := 1; total := 1; page := "?" |}.
Proof. split; reflexivity. Qed.

(** The synthetic page of the spec: three results, the second one matching. *)
Example ranking_three_results :
  ranking (Some "b.org") three_results
  = Ok {| found := 2; total := 3; page := "?" |}.
Proof. reflexivity. Qed.

Example ranking_three_results_absent :
  ranking (Some "qutebrowser.org") three_results
  = Ok {| found := -1; total := 3; page := "?" |}.
Proof. reflexivity. Qed.

(** C4, where the code departs from it: a result block without any
    hyperlink makes [links[0]] raise IndexError, whatever the fragment. *)
Theorem ranking_raises_without_link (st : UrlBar) :
  ranking (previous_url st) [result_without_link] = Raise IndexError
  /\ getGoogleRanking st (Some [result_without_link]) = Raise IndexError.
Proof.
  assert (H : ranking (previous_url st) [result_without_link]
              = Raise IndexError).
  { destruct (previous_url st); reflexivity. }
  split; [exact H|]. unfold getGoogleRanking. rewrite H. reflexivity.
Qed.

(** The handler of the load after such a page stops on that error, with
    the new page archived and [last_html] left on the old one. *)
Example load_finished_raises_after_result_without_link :
  (fun r => (fst r, last_html (snd r)))
    <$> on_load_finished sample_day
          (with_cur_tab
             (with_last_html (fresh_widget ∅) (Some [result_without_link]))
             (Some (mkTab None)))
          three_results
  = Some (Raised IndexError, Some [result_without_link]).
Proof. vm_compute. reflexivity. Qed.

(** The two other cases of C4 do degrade: without result headings the scan
    reports the sentinel and a total of 0, and without footer the label is
    "?". *)
Lemma ranking_no_headings previous_url (soup : html) :
  result_headings soup = [] ->
  exists label, ranking previous_url soup
                = Ok {| found := -1; total := 0; page := label |}.
Proof. intros H. unfold ranking. rewrite H. simpl. eauto. Qed.

Lemma ranking_no_footer previous_url (soup : html) r :
  find_footer soup = None -> ranking previous_url soup = Ok r ->
  page r = "?".
Proof.
  intros Hf. unfold ranking. rewrite Hf.
  destruct (scan _ _ _); simpl; [|discriminate].
  intros [= <-]. reflexivity.
Qed.






(** With [None] as fragment the substring test on an address raises. *)
Lemma ranking_null_fragment_raises :
  ranking None [result_block "http://a.org/"] = Raise TypeError.
Proof. reflexivity. Qed.

(** ** The archiver *)

Lemma append_cancel_r (s1 s2 t : string) : s1 +:+ t = s2 +:+ t -> s1 = s2.
Proof.
  assert (Hlen : forall a b : string,
             String.length (a +:+ b)
             = (String.length a + String.length b)%nat).
  { intros a b. induction a; simpl; congruence. }
  revert s2. induction s1 as [|c s1 IH]; intros [|c' s2] H; simpl in H.
  - reflexivity.
  - apply (f_equal String.length) in H. simpl in H. rewrite Hlen in H. lia.
  - apply (f_equal String.length) in H. simpl in H. rewrite Hlen in H. lia.
  - injection H as -> H. f_equal. apply IH, H.
Qed.

Lemma append_cancel_l (s t1 t2 : string) : s +:+ t1 = s +:+ t2 -> t1 = t2.
Proof. induction s; simpl; [auto | intros [= H]; auto]. Qed.

Lemma os_path_join_cases (a b : string) :
  (String.prefix "/" b = true /\ os_path_join a b = b)
  \/ (String.prefix "/" b = false /\ os_path_join a b = a +:+ "/" +:+ b).
Proof.
  destruct b as [|c r]; [right; split; reflexivity|].
  destruct c as [[] [] [] [] [] [] [] []];
    first [ right; split; reflexivity
          | left; split; [destruct r; reflexivity | reflexivity] ].
Qed.

Lemma os_path_join_inj (a b1 b2 : string) :
  String.prefix "/" b1 = String.prefix "/" b2 ->
  os_path_join a b1 = os_path_join a b2 -> b1 = b2.
Proof.
  intros Hp H.
  destruct (os_path_join_cases a b1) as [[Hp1 E1] | [Hp1 E1]];
    destruct (os_path_join_cases a b2) as [[Hp2 E2] | [Hp2 E2]];
    try congruence.
  rewrite E1, E2 in H. apply append_cancel_l in H.
  apply (append_cancel_l "/") in H. exact H.
Qed.

Lemma prefix_slash_cons (c : ascii) (x y : string) :
  String.prefix "/" (String c x) = String.prefix "/" (String c y).
Proof.
  change (String.prefix "/" (String c x))
    with (if ascii_dec "/"%char c then String.prefix "" x else false).
  change (String.prefix "/" (String c y))
    with (if ascii_dec "/"%char c then String.prefix "" y else false).
  destruct (ascii_dec "/"%char c); [destruct x, y|]; reflexivity.
Qed.

Section Archiver.

Variable TODAY : string.

Lemma capture_name_prefix (i j : nat) :
  String.prefix "/" (capture_name TODAY i)
  = String.prefix "/" (capture_name TODAY j).
Proof.
  unfold capture_name. destruct TODAY as [|c d]; [reflexivity|].
  apply prefix_slash_cons.
Qed.

Lemma capture_path_inj (i j : nat) :
  capture_path TODAY i = capture_path TODAY j -> i = j.
Proof.
  unfold capture_path. intros H.
  apply os_path_join_inj in H; [|apply capture_name_prefix].
  unfold capture_name in H.
  apply append_cancel_l in H. apply (append_cancel_l "-") in H.
  apply append_cancel_r in H. apply (inj pretty) in H. exact H.
Qed.

(** What the probing loop returns is free, and every smaller id from
    the start of the loop on is taken. *)
Lemma probe_least (disk : gmap string html) (fuel : nat) :
  forall id r, probe TODAY disk fuel id = Some r ->
    (id <= r)%nat
    /\ disk !! capture_path TODAY r = None
    /\ forall j, (id <= j < r)%nat ->
                 is_Some (disk !! capture_path TODAY j).
Proof.
  induction fuel as [|fuel IH]; intros id r; simpl; [discriminate|].
  destruct (disk !! capture_path TODAY id) as [f|] eqn:Hid.
  - intros H. apply IH in H as [Hle [Hfree Htaken]].
    split; [lia|]. split; [exact Hfree|].
    intros j Hj. destruct (decide (j = id)) as [-> | Hne].
    + rewrite Hid. eauto.
    + apply Htaken. lia.
  - intros [= <-]. split; [lia|]. split; [exact Hid|]. intros j Hj. lia.
Qed.

(** The loop ends as soon as a free id lies within its reach. *)
Lemma probe_finds (disk : gmap string html) (fuel : nat) :
  forall id j, (id <= j < id + fuel)%nat ->
    disk !! capture_path TODAY j = None ->
    exists r, probe TODAY disk fuel id = Some r.
Proof.
  induction fuel as [|fuel IH]; intros id j Hj Hfree; [lia|]. simpl.
  destruct (disk !! capture_path TODAY id) as [f|] eqn:Hid; [|eauto].
  apply (IH (S id) j); [|exact Hfree].
  destruct (decide (j = id)) as [-> | Hne]; [congruence | lia].
Qed.

(** Among the first [size disk + 1] ids one is free. *)
Lemma free_id_exists (disk : gmap string html) :
  exists j, (j < S (size disk))%nat
            /\ disk !! capture_path TODAY j = None.
Proof.
  set (n := size disk).
  destruct (decide (Forall (fun j => is_Some (disk !! capture_path TODAY j))
                           (seq 0 (S n)))) as [Hall | Hnot].
  - exfalso.
    set (X := list_to_set (capture_path TODAY <$> seq 0 (S n))
              : gset string).
    assert (HX : size X = S n).
    { unfold X. rewrite size_list_to_set.
      - rewrite length_fmap, length_seq. reflexivity.
      - apply NoDup_fmap_2; [|apply NoDup_seq].
        intros i j. apply capture_path_inj. }
    assert (Hsub : X ⊆ dom disk).
    { intros p Hp. unfold X in Hp. apply elem_of_list_to_set in Hp.
      apply list_elem_of_fmap in Hp as [j [-> Hj]].
      apply elem_of_dom. eapply (proj1 (Forall_forall _ _) Hall), Hj. }
    apply subseteq_size in Hsub. rewrite size_dom in Hsub. fold n in Hsub.
    lia.
  - apply not_Forall_Exists in Hnot; [|intros j; apply _].
    apply Exists_exists in Hnot as [j [Hj Hfree]].
    exists j. apply elem_of_seq in Hj. split; [lia|].
    simpl in Hfree. destruct (disk !! capture_path TODAY j); [|reflexivity].
    contradiction Hfree. eauto.
Qed.

(** The loop always ends, on the smallest free id. *)
Lemma first_free_id_least (disk : gmap string html) :
  exists id,
    first_free_id TODAY disk = Some id
    /\ disk !! capture_path TODAY id = None
    /\ forall j, (j < id)%nat -> is_Some (disk !! capture_path TODAY j).
Proof.
  destruct (free_id_exists disk) as [j [Hj Hfree]].
  destruct (probe_finds disk (S (size disk)) 0 j) as [r Hr];
    [lia | exact Hfree |].
  exists r. split; [exact Hr|].
  apply probe_least in Hr as [_ [Hr Htaken]]. split; [exact Hr|].
  intros i Hi. apply Htaken. lia.
Qed.

End Archiver.

(** ** Frame properties of the handlers *)

(** [add_log] touches the trace only. *)
Lemma add_log_frame (st : UrlBar) (e : string) :
  exists tr, add_log st e = with_trace st tr.
Proof.
  unfold add_log. destruct (START_TIME st =? 0).
  - exists (trace st). destruct st; reflexivity.
  - eauto.
Qed.

Lemma getGoogleRanking_frame (st st' : UrlBar) (h : option html) :
  getGoogleRanking st h = Ok st' -> exists tr, st' = with_trace st tr.
Proof.
  unfold getGoogleRanking. destruct h as [soup|].
  - destruct (ranking (previous_url st) soup) as [r|e]; simpl; [|discriminate].
    intros [= <-]. apply add_log_frame.
  - intros [= <-]. exists (trace st). destruct st; reflexivity.
Qed.

Section ArchiverRuns.

Variable TODAY : string.

Lemma dump_html_files (st : UrlBar) (h : html) (id : nat) :
  first_free_id TODAY (files st) = Some id ->
  exists o st',
    dump_html TODAY st h = Some (o, st')
    /\ files st' = <[capture_path TODAY id := h]> (files st).
Proof.
  intros Hid. unfold dump_html. rewrite Hid.
  destruct (add_log_frame
              (with_files st (<[capture_path TODAY id := h]> (files st)))
              ("LOAD_FINISHED;" +:+ capture_name TODAY id +:+ ";"
               +:+ url (with_files st
                         (<[capture_path TODAY id := h]> (files st)))))
    as [tr ->].
  destruct (getGoogleRanking _ _) as [st3|e] eqn:Hg.
  - apply getGoogleRanking_frame in Hg as [tr' ->].
    eexists _, _. split; reflexivity.
  - eexists _, _. split; reflexivity.
Qed.

Lemma insert_capture_other (disk : gmap string html) (h : html)
    (id j : nat) :
  j <> id ->
  <[capture_path TODAY id := h]> disk !! capture_path TODAY j
  = disk !! capture_path TODAY j.
Proof.
  intros Hne. apply lookup_insert_ne. intros H.
  apply capture_path_inj in H. congruence.
Qed.

Lemma insert_free_keeps (disk : gmap string html) (h : html) (p q : string) :
  disk !! p = None -> is_Some (disk !! q) ->
  <[p := h]> disk !! q = disk !! q.
Proof.
  intros Hfree [f Hq]. apply lookup_insert_ne. intros ->. congruence.
Qed.

(** Successive calls: the ids go up strictly, none of them was on the
    disk before, and no file that was there is written again. *)
Lemma dump_all_increasing (pages : list html) : forall st,
  exists ids st'',
    dump_all TODAY st pages = Some (ids, st'')
    /\ length ids = length pages
    /\ StronglySorted lt ids
    /\ (forall id, id ∈ ids -> files st !! capture_path TODAY id = None)
    /\ (forall p, is_Some (files st !! p) ->
                  files st'' !! p = files st !! p).
Proof.
  induction pages as [|h pages IH]; intros st.
  - exists [], st. simpl.
    split; [reflexivity|]. split; [reflexivity|].
    split; [constructor|]. split; [|reflexivity].
    intros id Hin. inversion Hin.
  - destruct (first_free_id_least TODAY (files st))
      as [id [Hid [Hfree Htaken]]].
    destruct (dump_html_files st h id Hid) as [o [st' [Hdump Hfiles]]].
    destruct (IH st') as [ids [st'' [Hall [Hlen [Hsorted [Hnew Hkeep]]]]]].
    assert (Hlater : forall id', id' ∈ ids -> (id < id')%nat).
    { intros id' Hin. apply Hnew in Hin. rewrite Hfiles in Hin.
      destruct (decide (id' = id)) as [-> | Hne];
        [rewrite lookup_insert_eq in Hin; discriminate|].
      rewrite insert_capture_other in Hin by exact Hne.
      destruct (decide (id' < id)%nat) as [Hlt | Hge]; [|lia].
      destruct (Htaken id' Hlt) as [f Hf]. congruence. }
    exists (id :: ids), st''. simpl. rewrite Hid, Hdump, Hall.
    split; [reflexivity|]. split; [lia|]. split; [|split].
    + constructor; [exact Hsorted|].
      apply Forall_forall. exact Hlater.
    + intros id' Hin. apply elem_of_cons in Hin as [-> | Hin];
        [exact Hfree|].
      pose proof (Hlater id' Hin) as Hlt. apply Hnew in Hin.
      rewrite Hfiles, insert_capture_other in Hin by lia. exact Hin.
    + intros p Hp.
      assert (Hp' : files st' !! p = files st !! p)
        by (rewrite Hfiles; apply insert_free_keeps; assumption).
      rewrite Hkeep; [exact Hp' | rewrite Hp'; exact Hp].
Qed.

(** Successive calls on a disk where exactly the ids below [k] are
    taken produce [k], [k+1], ... *)
Lemma dump_all_consecutive (pages : list html) : forall st k,
  (forall j, (j < k)%nat -> is_Some (files st !! capture_path TODAY j)) ->
  (forall j, (k <= j)%nat -> files st !! capture_path TODAY j = None) ->
  exists st'', dump_all TODAY st pages
               = Some (seq k (length pages), st'').
Proof.
  induction pages as [|h pages IH]; intros st k Hbelow Habove.
  - exists st. reflexivity.
  - destruct (first_free_id_least TODAY (files st))
      as [id [Hid [Hfree Htaken]]].
    assert (id = k) as ->.
    { destruct (decide (id < k)%nat) as [Hlt | Hge].
      - destruct (Hbelow id Hlt) as [f Hf]. congruence.
      - destruct (decide (k < id)%nat) as [Hlt | Hge']; [|lia].
        destruct (Htaken k Hlt) as [f Hf].
        rewrite Habove in Hf by lia. discriminate. }
    destruct (dump_html_files st h k Hid) as [o [st' [Hdump Hfiles]]].
    destruct (IH st' (S k)) as [st'' Hall].
    + intros j Hj. rewrite Hfiles.
      destruct (decide (j = k)) as [-> | Hne].
      * rewrite lookup_insert_eq. eauto.
      * rewrite insert_capture_other by exact Hne. apply Hbelow. lia.
    + intros j Hj. rewrite Hfiles, insert_capture_other by lia.
      apply Habove. lia.
    + exists st''. simpl. rewrite Hid, Hdump, Hall. reflexivity.
Qed.

(** C2, as the code has it: every call ends, on the smallest id whose
    file does not exist, and writes the page there without touching any
    file that exists; over successive calls the ids go up strictly and
    skip every id that was taken before; they are 0, 1, ..., N-1 when no
    capture of the day existed before the first call. *)
Theorem dump_html_smallest_free_id (st : UrlBar) (h : html) :
  (exists id o st',
      first_free_id TODAY (files st) = Some id
      /\ dump_html TODAY st h = Some (o, st')
      /\ files st !! capture_path TODAY id = None
      /\ (forall j, (j < id)%nat ->
                    is_Some (files st !! capture_path TODAY j))
      /\ files st' = <[capture_path TODAY id := h]> (files st)
      /\ (forall p, is_Some (files st !! p) ->
                    files st' !! p = files st !! p))
  /\ (forall pages, exists ids st'',
        dump_all TODAY st pages = Some (ids, st'')
        /\ length ids = length pages
        /\ StronglySorted lt ids
        /\ (forall id, id ∈ ids ->
                       files st !! capture_path TODAY id = None)
        /\ (forall p, is_Some (files st !! p) ->
                      files st'' !! p = files st !! p)
        /\ ((forall id, files st !! capture_path TODAY id = None) ->
            ids = seq 0 (length pages))).
Proof.
  split.
  - destruct (first_free_id_least TODAY (files st))
      as [id [Hid [Hfree Htaken]]].
    destruct (dump_html_files st h id Hid) as [o [st' [Hdump Hfiles]]].
    exists id, o, st'. repeat split; try assumption.
    intros p Hp. rewrite Hfiles. apply insert_free_keeps; assumption.
  - intros pages.
    destruct (dump_all_increasing pages st)
      as [ids [st'' [Hall [Hlen [Hsorted [Hnew Hkeep]]]]]].
    exists ids, st''. repeat split; try assumption.
    intros Hempty.
    destruct (dump_all_consecutive pages st 0) as [st2 Hseq];
      [intros j Hj; lia | intros j _; apply Hempty |].
    congruence.
Qed.

End ArchiverRuns.

Lemma dump_html_smallest_free_id_witness :
  exists ids st'',
    dump_all sample_day (fresh_widget ∅) [[]; three_results]
    = Some (ids, st'')
    /\ ids = [0%nat; 1%nat].
Proof.
  destruct (dump_html_smallest_free_id sample_day (fresh_widget ∅) [])
    as [_ H].
  destruct (H [[]; three_results]) as [ids [st'' [Hall [_ [_ [_ [_ Hseq]]]]]]].
  exists ids, st''. split; [exact Hall|]. apply Hseq.
  intros id. apply lookup_empty.
Defined.

(** C2 as stated fails when a capture of the day exists beforehand: with
    the file of id 0 on the disk, the first call produces id 1, not 0. *)
Lemma dump_all_skips_existing_capture :
  fst <$> dump_all sample_day
            (fresh_widget {[ "sauvegarde_pages/04-11-2026-0.html" := [] ]})
            [three_results]
  = Some [1%nat].
Proof. vm_compute. reflexivity. Qed.

(** ** The effect of one handler *)

Lemma differs_false text previous :
  differs text previous = false -> previous = Some text.
Proof.
  destruct previous as [p|]; simpl; [|discriminate].
  intros H. apply negb_false_iff, String.eqb_eq in H. congruence.
Qed.

Lemma differs_same text : differs text (Some text) = false.
Proof. simpl. rewrite String.eqb_refl. reflexivity. Qed.

(** A display update renders its text, remembers it as the last one
    logged, and logs it when it differs from the last one logged. *)
Lemma display_effect (st : UrlBar) (d : DisplayUpdate) :
  START_TIME st <> 0 ->
  url (display st d) = update_text st d
  /\ previous_url (display st d) = Some (update_text st d)
  /\ trace (display st d)
     = trace st ++ (if differs (update_text st d) (previous_url st)
                    then ["URL_CHANGED;" +:+ update_text st d] else [])
  /\ START_TIME (display st d) = START_TIME st
  /\ ignore_first_load (display st d) = ignore_first_load st
  /\ normal_text (display st d) = update_text st d
  /\ files (display st d) = files st
  /\ last_html (display st d) = last_html st
  /\ has_tab (display st d)
     = match d with ShowTab _ => true | _ => has_tab st end.
Proof.
  intros Hs. apply Z.eqb_neq in Hs.
  destruct st as [fs tr t0 ig lh pu ut hu nu nt u ct]. simpl in Hs.
  assert (Hupd : forall nu' nt' ut' u' ct',
    let s := mkUrlBar fs tr t0 ig lh pu ut' hu nu' nt' u' ct' in
    let text := match nu' with Some x => x | None => "" end in
    url (_update_url s) = text
    /\ previous_url (_update_url s) = Some text
    /\ trace (_update_url s)
       = tr ++ (if differs text pu then ["URL_CHANGED;" +:+ text] else [])
    /\ START_TIME (_update_url s) = t0
    /\ ignore_first_load (_update_url s) = ig
    /\ normal_text (_update_url s) = text
    /\ files (_update_url s) = fs
    /\ last_html (_update_url s) = lh
    /\ cur_tab (_update_url s) = ct').
  { intros nu' nt' ut' u' ct'. unfold _update_url, normal_text.
    destruct nu' as [x|]; simpl;
      match goal with |- context [differs ?t pu] =>
        destruct (differs t pu) eqn:Hd end;
      unfold add_log; simpl; rewrite ?Hs; simpl; rewrite ?app_nil_r;
      repeat split; try reflexivity; apply differs_false in Hd; exact Hd. }
  assert (Htab : forall s b, cur_tab s = b ->
                has_tab s = match b with Some _ => true | None => false end).
  { intros s b <-. reflexivity. }
  destruct d as [[[q|]]|[q|]|status]; simpl.
  - unfold on_tab_changed, on_set_url. simpl.
    destruct (isValid q);
      match goal with |- context [_update_url ?s] =>
        destruct (Hupd (_normal_url s) (_normal_url_type s) ut u
                       (Some (mkTab (Some q))))
          as (? & ? & ? & ? & ? & ? & ? & ? & Hc) end;
      repeat split; try assumption; apply (Htab _ _ Hc).
  - unfold on_tab_changed, on_set_url. simpl.
    destruct (Hupd None UrlType.normal ut u (Some (mkTab None)))
      as (? & ? & ? & ? & ? & ? & ? & ? & Hc).
    repeat split; try assumption. apply (Htab _ _ Hc).
  - unfold on_set_url. simpl.
    destruct (isValid q);
      match goal with |- context [_update_url ?s] =>
        destruct (Hupd (_normal_url s) (_normal_url_type s) ut u ct)
          as (? & ? & ? & ? & ? & ? & ? & ? & Hc) end;
      repeat split; try assumption; apply (Htab _ _ Hc).
  - unfold on_set_url. simpl.
    destruct (Hupd None UrlType.normal ut u ct)
      as (? & ? & ? & ? & ? & ? & ? & ? & Hc).
    repeat split; try assumption. apply (Htab _ _ Hc).
  - unfold on_load_status_changed, update_text, normal_text. simpl.
    destruct status;
      match goal with |- context [_update_url ?s] =>
        destruct (Hupd nu (_normal_url_type s) ut u ct)
          as (? & ? & ? & ? & ? & ? & ? & ? & Hc) end;
      repeat split; try assumption; apply (Htab _ _ Hc).
Qed.


Lemma count_load_started_app (tr new : list string) :
  count_load_started (tr ++ new)
  = (count_load_started tr + count_load_started new)%nat.
Proof.
  unfold count_load_started. rewrite List.filter_app. apply length_app.
Qed.

Lemma count_load_finished_app (tr new : list string) :
  count_load_finished (tr ++ new)
  = (count_load_finished tr + count_load_finished new)%nat.
Proof.
  unfold count_load_finished. rewrite List.filter_app. apply length_app.
Qed.

(** The handlers other than the display updates, on a state given by its
    fields: the entries they append are read off the resulting trace. *)
Ltac unfold_handlers Hs :=
  unfold on_load_started, set_hover_url, on_press_enter, on_request_search,
    on_search, on_search_next, on_search_previous, add_log;
  simpl; rewrite ?Hs; simpl.

Ltac appended_entries :=
  rewrite ?andb_true_r; repeat split;
  first [ exists []; rewrite app_nil_r; repeat split; reflexivity
        | eexists; (split; [reflexivity|]); repeat split; reflexivity ].

Section Steps.

Variable TODAY : string.
Variable to_QUrl : string -> QUrl.

(** [dump_html] on a started widget, step by step: the page is written
    and LOAD_FINISHED logged; the scan runs on [last_html] as it was on
    entry; when it returns, its entry is logged and [last_html] becomes
    the new page; when it raises, the handler stops there. *)
Lemma dump_html_started (st : UrlBar) (h : html) (id : nat) :
  START_TIME st <> 0 -> first_free_id TODAY (files st) = Some id ->
  dump_html TODAY st h
  = let entry := "LOAD_FINISHED;" +:+ capture_name TODAY id +:+ ";"
                 +:+ url st in
    let st2 :=
      with_trace (with_files st (<[capture_path TODAY id := h]> (files st)))
                 (trace st ++ [entry]) in
    match last_html st with
    | None => Some (Returned, with_last_html st2 (Some h))
    | Some prev =>
        match ranking (previous_url st) prev with
        | Ok r =>
            Some (Returned,
                  with_last_html
                    (with_trace st2 (trace st ++ [entry; rank_entry r]))
                    (Some h))
        | Raise e => Some (Raised e, st2)
        end
    end.
Proof.
  intros Hs Hid. unfold dump_html. rewrite Hid. apply Z.eqb_neq in Hs.
  destruct st as [fs tr t0 ig lh pu ut hu nu nt u ct]. simpl in *.
  unfold add_log. simpl. rewrite Hs. simpl.
  unfold getGoogleRanking. simpl. destruct lh as [prev|]; [|reflexivity].
  destruct (ranking pu prev) as [r|e]; simpl; [|reflexivity].
  unfold add_log. simpl. rewrite Hs.
  unfold with_trace, with_last_html. simpl. rewrite <- app_assoc.
  reflexivity.
Qed.

Lemma handle_total (ev : Event) (st : UrlBar) :
  exists o st', handle TODAY to_QUrl ev st = Some (o, st').
Proof.
  destruct ev; simpl; eauto.
  unfold on_load_finished. destruct (cur_tab st); [|eauto].
  destruct (first_free_id_least TODAY (files st)) as [id [Hid _]].
  destruct (dump_html_files TODAY st h id Hid) as [o [st' [H _]]]. eauto.
Qed.

(** One handler: the start time stays, the flag falls at a load start, the
    tab stays once there is one, and the entries appended are one LOAD
    STARTED at a load start that is not the first, one LOAD_FINISHED at a
    load end with a tab, and the URL_CHANGED entry of the text that
    [previous_url] then holds. *)
Lemma handle_summary ev st o st' :
  START_TIME st <> 0 -> handle TODAY to_QUrl ev st = Some (o, st') ->
  START_TIME st' = START_TIME st
  /\ ignore_first_load st'
     = ignore_first_load st && negb (is_load_started ev)
  /\ has_tab st'
     = match ev with TabChanged _ => true | _ => has_tab st end
  /\ exists new,
       trace st' = trace st ++ new
       /\ count_load_started new
          = (if is_load_started ev && negb (ignore_first_load st)
             then 1 else 0)%nat
       /\ count_load_finished new
          = (if is_load_finished ev && has_tab st then 1 else 0)%nat
       /\ previous_url st'
          = match last_url_changed new with
            | Some t => Some t
            | None => previous_url st
            end.
Proof.
  intros Hs H.
  assert (Hdisplay : forall d,
    START_TIME (display st d) = START_TIME st
    /\ ignore_first_load (display st d) = ignore_first_load st && true
    /\ has_tab (display st d)
       = match d with ShowTab _ => true | _ => has_tab st end
    /\ exists new,
         trace (display st d) = trace st ++ new
         /\ count_load_started new = 0%nat
         /\ count_load_finished new = 0%nat
         /\ previous_url (display st d)
            = match last_url_changed new with
              | Some t => Some t
              | None => previous_url st
              end).
  { intros d.
    destruct (display_effect st d Hs)
      as (_ & Hp & Ht & H0 & Hi & _ & _ & _ & Hc).
    rewrite H0, Hi, Ht, Hp, andb_true_r. repeat split; [exact Hc|].
    destruct (differs _ _) eqn:Hd; eexists; split; try reflexivity.
    - repeat split; reflexivity.
    - apply differs_false in Hd. repeat split; try reflexivity.
      simpl. congruence. }
  destruct ev; simpl in H; try (injection H as <- <-);
    try apply (Hdisplay (ShowTab tab));
    try apply (Hdisplay (ShowUrl u));
    try apply (Hdisplay (ShowStatus status)); clear Hdisplay.
  - apply Z.eqb_neq in Hs.
    destruct st as [fs tr t0 ig lh pu ut hu nu nt u ct]. simpl in *.
    destruct ig; unfold_handlers Hs; appended_entries.
  - unfold on_load_finished in H. unfold has_tab.
    destruct (cur_tab st) as [tab|] eqn:Htab.
    + destruct (first_free_id_least TODAY (files st)) as [id [Hid _]].
      rewrite (dump_html_started st h id Hs Hid) in H. cbv zeta in H.
      destruct st as [fs tr t0 ig lh pu ut hu nu nt u ct]. simpl in *.
      subst ct.
      destruct lh as [prev|]; [destruct (ranking pu prev) as [r|e]|];
        injection H as <- <-; simpl; appended_entries.
    + injection H as <- <-. rewrite Htab. simpl. appended_entries.
  - apply Z.eqb_neq in Hs.
    destruct st as [fs tr t0 ig lh pu ut hu nu nt u ct]. simpl in *.
    unfold set_hover_url.
    destruct (String.eqb link ""); [|destruct (isValid (to_QUrl link))];
      unfold_handlers Hs; appended_entries.
  - destruct st as [fs tr t0 ig lh pu ut hu nu nt u ct]. simpl in *.
    appended_entries.
  - apply Z.eqb_neq in Hs.
    destruct st as [fs tr t0 ig lh pu ut hu nu nt u ct]. simpl in *.
    unfold_handlers Hs; appended_entries.
  - apply Z.eqb_neq in Hs.
    destruct st as [fs tr t0 ig lh pu ut hu nu nt u ct]. simpl in *.
    unfold_handlers Hs; appended_entries.
  - apply Z.eqb_neq in Hs.
    destruct st as [fs tr t0 ig lh pu ut hu nu nt u ct]. simpl in *.
    unfold on_search. destruct (String.eqb txt "");
      unfold_handlers Hs; appended_entries.
  - apply Z.eqb_neq in Hs.
    destruct st as [fs tr t0 ig lh pu ut hu nu nt u ct]. simpl in *.
    unfold on_search_next. destruct (String.eqb txt "");
      unfold_handlers Hs; appended_entries.
  - apply Z.eqb_neq in Hs.
    destruct st as [fs tr t0 ig lh pu ut hu nu nt u ct]. simpl in *.
    unfold on_search_previous. destruct (String.eqb txt "");
      unfold_handlers Hs; appended_entries.
Qed.

End Steps.

(** ** Runs of the widget *)

Lemma count_events_cons (p : Event -> bool) (ev : Event) (evs : list Event) :
  count_events p (ev :: evs)
  = ((if p ev then 1 else 0) + count_events p evs)%nat.
Proof. unfold count_events. simpl. destruct (p ev); reflexivity. Qed.



Section RunsOfTheWidget.

Variable TODAY : string.
Variable to_QUrl : string -> QUrl.

Lemma run_total (evs : list Event) : forall st,
  exists st', run TODAY to_QUrl evs st = Some st'.
Proof.
  induction evs as [|ev evs IH]; intros st; simpl; [eauto|].
  destruct (handle_total TODAY to_QUrl ev st) as [o [st1 ->]]. apply IH.
Qed.

(** Over a run, LOAD STARTED is logged for every load start but the
    first one met with the flag up, and LOAD_FINISHED for every load
    end that finds a tab. *)
Lemma run_counts (evs : list Event) : forall st st',
  START_TIME st <> 0 -> run TODAY to_QUrl evs st = Some st' ->
  count_load_started (trace st')
  = (count_load_started (trace st)
     + (count_events is_load_started evs
        - (if ignore_first_load st then 1 else 0)))%nat
  /\ count_load_finished (trace st')
     = (count_load_finished (trace st)
        + count_events is_load_finished
            (if has_tab st then evs else after_tab evs))%nat.
Proof.
  induction evs as [|ev evs IH]; intros st st' Hs Hrun; simpl in Hrun.
  - injection Hrun as <-. unfold count_events.
    destruct (has_tab st); simpl; lia.
  - destruct (handle TODAY to_QUrl ev st) as [[o st1]|] eqn:Hev;
      [|discriminate].
    destruct (handle_summary TODAY to_QUrl ev st o st1 Hs Hev)
      as (H0 & Hflag & Htab & new & Htr & Hcs & Hcf & _).
    destruct (IH st1 st') as [IHs IHf]; [congruence | exact Hrun |].
    rewrite IHs, IHf, Htr, count_load_started_app, count_load_finished_app,
      Hcs, Hcf, Hflag, Htab.
    destruct (has_tab st), (ignore_first_load st), ev;
      rewrite ?count_events_cons; simpl; lia.
Qed.

Lemma handle_texts ev st o st' :
  START_TIME st <> 0 -> handle TODAY to_QUrl ev st = Some (o, st') ->
  (normal_text st' = normal_text st
   \/ exists u, url_set ev = Some u /\ normal_text st' = url_text u)
  /\ (previous_url st' = previous_url st
      \/ previous_url st' = Some (normal_text st')).
Proof.
  intros Hs H. destruct ev; simpl in H; try (injection H as <- <-).
  - destruct (display_effect st (ShowTab tab) Hs)
      as (_ & Hp & _ & _ & _ & Hn & _).
    simpl display in *. rewrite Hp, Hn. split; [right; eauto | right; auto].
  - destruct (display_effect st (ShowUrl u) Hs)
      as (_ & Hp & _ & _ & _ & Hn & _).
    simpl display in *. rewrite Hp, Hn. split; [right; eauto | right; auto].
  - destruct (display_effect st (ShowStatus status) Hs)
      as (_ & Hp & _ & _ & _ & Hn & _).
    simpl display in *. rewrite Hp, Hn. split; [left | right]; reflexivity.
  - unfold on_load_started, add_log.
    destruct (ignore_first_load st), (START_TIME st =? 0);
      split; left; reflexivity.
  - unfold on_load_finished in H.
    destruct (cur_tab st); [|injection H as <- <-; split; left; reflexivity].
    destruct (first_free_id_least TODAY (files st)) as [id [Hid _]].
    rewrite (dump_html_started TODAY st h id Hs Hid) in H. cbv zeta in H.
    destruct (last_html st) as [prev|];
      [destruct (ranking (previous_url st) prev) as [r|e]|];
      injection H as <- <-; split; left; reflexivity.
  - unfold set_hover_url, add_log.
    destruct (String.eqb link ""), (isValid (to_QUrl link)),
      (START_TIME st =? 0); split; left; reflexivity.
  - split; left; reflexivity.
  - unfold add_log. destruct (START_TIME st =? 0); split; left; reflexivity.
  - unfold on_request_search, add_log.
    destruct (START_TIME st =? 0); split; left; reflexivity.
  - unfold on_search, add_log.
    destruct (String.eqb txt ""), (START_TIME st =? 0);
      split; left; reflexivity.
  - unfold on_search_next, add_log.
    destruct (String.eqb txt ""), (START_TIME st =? 0);
      split; left; reflexivity.
  - unfold on_search_previous, add_log.
    destruct (String.eqb txt ""), (START_TIME st =? 0);
      split; left; reflexivity.
Qed.


Lemma init_invariant (now : Z) (start : string) (disk : gmap string html) :
  now <> 0 ->
  START_TIME (init now start disk) = now
  /\ trace (init now start disk) = ["START;" +:+ start]
  /\ ignore_first_load (init now start disk) = true
  /\ previous_url (init now start disk) = None
  /\ normal_text (init now start disk) = ""
  /\ last_html (init now start disk) = None
  /\ files (init now start disk) = disk
  /\ has_tab (init now start disk) = false.
Proof.
  intros H. apply Z.eqb_neq in H. unfold init, add_log. simpl.
  rewrite H. repeat split; reflexivity.
Qed.

(** C3, as the code has it: the suppression is that of the first
    load-started event.  In every run of a widget, all but the first of
    the load-started events have appended a LOAD STARTED entry, and
    every load-finished event that comes once the widget has its tab, the
    first one included, has appended a LOAD_FINISHED entry. *)
Theorem load_started_suppressed_once
    (now : Z) (start : string) (disk : gmap string html)
    (evs : list Event) :
  now <> 0 ->
  exists st,
    run TODAY to_QUrl evs (init now start disk) = Some st
    /\ count_load_started (trace st)
       = pred (count_events is_load_started evs)
    /\ count_load_finished (trace st)
       = count_events is_load_finished (after_tab evs).
Proof.
  intros Hnow.
  destruct (run_total evs (init now start disk)) as [st Hrun].
  exists st. split; [exact Hrun|].
  destruct (init_invariant now start disk Hnow)
    as (H0 & Htr & Hflag & _ & _ & _ & _ & Htab).
  destruct (run_counts evs (init now start disk) st) as [Hcs Hcf];
    [congruence | exact Hrun |].
  rewrite Hcs, Hcf, Htr, Hflag, Htab.
  change (count_load_started ["START;" +:+ start]) with 0%nat.
  change (count_load_finished ["START;" +:+ start]) with 0%nat.
  lia.
Qed.

End RunsOfTheWidget.

Lemma load_started_suppressed_once_witness :
  exists st,
    run sample_day sample_QUrl
        [TabChanged (mkTab None); LoadStarted; LoadFinished [];
         LoadStarted; LoadFinished []]
        (fresh_widget ∅) = Some st
    /\ count_load_started (trace st) = 1%nat
    /\ count_load_finished (trace st) = 2%nat.
Proof.
  apply (load_started_suppressed_once sample_day sample_QUrl 1000
           "2026-11-04 10:00" ∅
           [TabChanged (mkTab None); LoadStarted; LoadFinished [];
            LoadStarted; LoadFinished []]).
  lia.
Defined.

(** C3 as stated fails at the first load-finished event after
    construction: it appends its LOAD_FINISHED entry to the trace. *)
Lemma first_load_finished_is_logged :
  (trace <$> run sample_day sample_QUrl
               [TabChanged (mkTab (Some (mkQUrl true "http://a.org/")));
                LoadFinished []]
               (fresh_widget ∅))
  = Some ["START;2026-11-04 10:00"; "URL_CHANGED;http://a.org/";
          "LOAD_FINISHED;04-11-2026-0.html;http://a.org/"].
Proof. vm_compute. reflexivity. Qed.

(** ** The order of effects in [dump_html] *)

(** Whether the scan of a page raises does not depend on the string
    given as fragment. *)
Lemma scan_raise_any_fragment ts : forall f f' acc acc' e,
  scan (Some f) ts acc = Raise e -> scan (Some f') ts acc' = Raise e.
Proof.
  induction ts as [|t ts IH]; intros f f' [rank found0] [rank' found0'] e;
    [discriminate|].
  rewrite !scan_cons. unfold scan_step.
  destruct (snd t) as [d|]; [|apply IH].
  unfold first_link. destruct (find_all "a" d) as [|l0 ?]; [auto|].
  simpl. destruct (get "href" l0) as [[s|ms]|]; simpl; auto; apply IH.
Qed.

Lemma ranking_raise_any_fragment soup f e :
  ranking (Some f) soup = Raise e ->
  forall f', ranking (Some f') soup = Raise e.
Proof.
  unfold ranking. intros H f'.
  destruct (scan (Some f) (result_headings soup) (1, -1)) as [acc|e0] eqn:Hs;
    simpl in H; [discriminate|].
  injection H as ->.
  rewrite (scan_raise_any_fragment _ f f' (1, -1) (1, -1) e Hs). reflexivity.
Qed.

Section Loads.

Variable TODAY : string.
Variable to_QUrl : string -> QUrl.

Lemma handle_last_html ev st o st' :
  START_TIME st <> 0 -> handle TODAY to_QUrl ev st = Some (o, st') ->
  is_load_finished ev = false -> last_html st' = last_html st.
Proof.
  intros Hs H Hev. destruct ev; simpl in H; try discriminate;
    injection H as <- <-.
  - apply (display_effect st (ShowTab tab) Hs).
  - apply (display_effect st (ShowUrl u) Hs).
  - apply (display_effect st (ShowStatus status) Hs).
  - unfold on_load_started, add_log.
    destruct (ignore_first_load st), (START_TIME st =? 0); reflexivity.
  - unfold set_hover_url, add_log.
    destruct (String.eqb link ""), (isValid (to_QUrl link)),
      (START_TIME st =? 0); reflexivity.
  - reflexivity.
  - unfold add_log. destruct (START_TIME st =? 0); reflexivity.
  - unfold on_request_search, add_log.
    destruct (START_TIME st =? 0); reflexivity.
  - unfold on_search, add_log.
    destruct (String.eqb txt ""), (START_TIME st =? 0); reflexivity.
  - unfold on_search_next, add_log.
    destruct (String.eqb txt ""), (START_TIME st =? 0); reflexivity.
  - unfold on_search_previous, add_log.
    destruct (String.eqb txt ""), (START_TIME st =? 0); reflexivity.
Qed.

Lemma handle_load_invariant ev st o st' prev :
  START_TIME st <> 0 -> handle TODAY to_QUrl ev st = Some (o, st') ->
  load_invariant st prev ->
  load_invariant st' (last_page (has_tab st) prev [ev]).
Proof.
  intros Hs H [Hfrag Hlast].
  destruct (handle_summary TODAY to_QUrl ev st o st' Hs H)
    as (_ & _ & Htab & _).
  destruct (handle_texts TODAY to_QUrl ev st o st' Hs H) as [_ Hprev].
  destruct (is_load_finished ev) eqn:Hev.
  - destruct ev; try discriminate. simpl in H. unfold on_load_finished in H.
    unfold has_tab in *. destruct (cur_tab st) as [tab|] eqn:Hct.
    + clear Htab Hprev.
      destruct (first_free_id_least TODAY (files st)) as [id [Hid _]].
      rewrite (dump_html_started TODAY st h id Hs Hid) in H. cbv zeta in H.
      destruct (previous_url st) as [f|] eqn:Hf; [|contradiction Hfrag; auto].
      change (last_page true prev [LoadFinished h]) with (Some h).
      destruct (last_html st) as [p|] eqn:Hp;
        [destruct (ranking (Some f) p) as [r|e] eqn:Hr|];
        injection H as <- <-;
        (split; [intros _; change (previous_url st <> None);
                 rewrite Hf; discriminate|]).
      * left. reflexivity.
      * right. exists p. split; [exact Hp|]. exists e.
        apply (ranking_raise_any_fragment p f e Hr).
      * left. reflexivity.
    + injection H as <- <-. simpl.
      split; [unfold has_tab; rewrite Hct; exact Hfrag | exact Hlast].
  - unfold load_invariant. rewrite (handle_last_html ev st o st' Hs H Hev).
    assert (Hpage : last_page (has_tab st) prev [ev] = prev)
      by (destruct ev; try discriminate; reflexivity).
    rewrite Hpage. split; [|exact Hlast].
    intros Ht.
    assert (Hcase : (exists tab, ev = TabChanged tab)
                    \/ has_tab st' = has_tab st).
    { destruct ev; eauto. }
    destruct Hcase as [[tab ->] | Hsame].
    + injection H as <- <-.
      destruct (display_effect st (ShowTab tab) Hs) as (_ & Hp & _).
      simpl in Hp. rewrite Hp. discriminate.
    + destruct Hprev as [-> | ->]; [|discriminate].
      apply Hfrag. congruence.
Qed.

Lemma last_page_cons ev evs tab prev tab' :
  tab' = match ev with TabChanged _ => true | _ => tab end ->
  last_page tab prev (ev :: evs) = last_page tab' (last_page tab prev [ev]) evs.
Proof. intros ->. destruct ev; reflexivity. Qed.

Lemma run_load_invariant (evs : list Event) : forall st st' prev,
  START_TIME st <> 0 -> load_invariant st prev ->
  run TODAY to_QUrl evs st = Some st' ->
  START_TIME st' = START_TIME st
  /\ load_invariant st' (last_page (has_tab st) prev evs).
Proof.
  induction evs as [|ev evs IH]; intros st st' prev Hs Hinv Hrun;
    simpl in Hrun.
  - injection Hrun as <-. auto.
  - destruct (handle TODAY to_QUrl ev st) as [[o st1]|] eqn:Hev;
      [|discriminate].
    destruct (handle_summary TODAY to_QUrl ev st o st1 Hs Hev)
      as (H0 & _ & Htab & _).
    pose proof (handle_load_invariant ev st o st1 prev Hs Hev Hinv) as Hinv1.
    destruct (IH st1 st' _ ltac:(congruence) Hinv1 Hrun) as [IH0 IHinv].
    split; [congruence|].
    rewrite (last_page_cons ev evs (has_tab st) prev (has_tab st1) Htab).
    exact IHinv.
Qed.



End Loads.


(** A results page, then the page of its second result: the second load
    writes the rank of the first page. *)
Example rank_entry_one_load_behind :
  (trace <$> run sample_day sample_QUrl
               [TabChanged (mkTab (Some (mkQUrl true "http://b.org/x")));
                LoadFinished three_results; LoadFinished []]
               (fresh_widget ∅))
  = Some ["START;2026-11-04 10:00"; "URL_CHANGED;http://b.org/x";
          "LOAD_FINISHED;04-11-2026-0.html;http://b.org/x";
          "LOAD_FINISHED;04-11-2026-1.html;http://b.org/x";
          "RANK;2;SUR:;3;PAGE;?"].
Proof. vm_compute. reflexivity. Qed.

(** ** The display *)

(** C7, as the code has it: over any sequence of display updates the
    URL_CHANGED entries appended are the rendered texts that differ from
    the text last logged, each once; the text last logged is the text the
    last display update rendered, so an update that renders the same text
    again logs nothing and one that renders another text logs it once;
    before the first URL_CHANGED entry nothing has been logged, and the
    update logs its text whatever the field shows. *)
Theorem url_changed_once_per_change (st : UrlBar) (ds : list DisplayUpdate) :
  START_TIME st <> 0 ->
  trace (display_all ds st)
  = trace st ++ map (String.append "URL_CHANGED;")
                    (changes (previous_url st) (rendered ds st))
  /\ (forall d, previous_url (display st d) = Some (url (display st d)))
  /\ (forall d, previous_url st = Some (url st) ->
        (url (display st d) = url st -> trace (display st d) = trace st)
        /\ (url (display st d) <> url st ->
            trace (display st d)
            = trace st ++ ["URL_CHANGED;" +:+ url (display st d)]))
  /\ (forall d, previous_url st = None ->
        trace (display st d)
        = trace st ++ ["URL_CHANGED;" +:+ url (display st d)]).
Proof.
  intros Hs. split; [|split; [|split]].
  - revert st Hs. induction ds as [|d ds IH]; intros st Hs; simpl.
    + rewrite app_nil_r. reflexivity.
    + destruct (display_effect st d Hs) as (Hu & Hp & Ht & H0 & _).
      rewrite IH by congruence. rewrite Hp, Ht, Hu, <- app_assoc.
      destruct (differs (update_text st d) (previous_url st)); reflexivity.
  - intros d. destruct (display_effect st d Hs) as (Hu & Hp & _).
    congruence.
  - intros d Hsync. destruct (display_effect st d Hs) as (Hu & _ & Ht & _).
    rewrite Hsync in Ht. rewrite Ht, Hu. split.
    + intros ->. rewrite differs_same, app_nil_r. reflexivity.
    + intros Hne. destruct (differs _ _) eqn:Hd; [reflexivity|].
      apply differs_false in Hd. congruence.
  - intros d Hnone. destruct (display_effect st d Hs) as (Hu & _ & Ht & _).
    rewrite Hnone in Ht. rewrite Ht, Hu. reflexivity.
Qed.

Lemma url_changed_once_per_change_witness :
  trace (display_all [ShowUrl (Some (mkQUrl true "http://a.org/"));
                      ShowStatus LoadStatus.success;
                      ShowUrl (Some (mkQUrl true "http://a.org/"));
                      ShowUrl (Some (mkQUrl true "http://b.org/"))]
                     (fresh_widget ∅))
  = ["START;2026-11-04 10:00"; "URL_CHANGED;http://a.org/";
     "URL_CHANGED;http://b.org/"].
Proof.
  destruct (url_changed_once_per_change (fresh_widget ∅)
              [ShowUrl (Some (mkQUrl true "http://a.org/"));
               ShowStatus LoadStatus.success;
               ShowUrl (Some (mkQUrl true "http://a.org/"));
               ShowUrl (Some (mkQUrl true "http://b.org/"))]) as [H _].
  - simpl. lia.
  - rewrite H. reflexivity.
Defined.

(** C7 as stated fails at the first display update of a widget: the field
    shows the empty text, the update sets the empty text again, and a
    URL_CHANGED entry is logged. *)
Lemma url_changed_logged_for_unchanged_text :
  url (fresh_widget ∅) = ""
  /\ url (on_set_url (fresh_widget ∅) None) = ""
  /\ trace (on_set_url (fresh_widget ∅) None)
     = trace (fresh_widget ∅) ++ ["URL_CHANGED;"].
Proof. repeat split. Qed.

(** C9, where the code departs from it: [set_hover_url] stores the hover
    text and leaves the field and its classification as they are, and
    [_update_url] renders the same text with and without hover text; after
    a normal URL and a hovered link the field shows the normal URL. *)
Theorem hover_url_not_displayed
    (to_QUrl : string -> QUrl) (st : UrlBar) (link : string) :
  url (set_hover_url to_QUrl st link) = url st
  /\ _urltype (set_hover_url to_QUrl st link) = _urltype st
  /\ url (_update_url (set_hover_url to_QUrl st link)) = url (_update_url st)
  /\ (let shown := on_set_url (fresh_widget ∅)
                     (Some (mkQUrl true "http://a.org/")) in
      let hovered := set_hover_url sample_QUrl shown "http://b.org/" in
      _hover_url hovered = Some "http://b.org/"
      /\ url hovered = "http://a.org/"
      /\ url (_update_url hovered) = "http://a.org/").
Proof.
  assert (Hurl : forall s, url (_update_url s) = normal_text s).
  { intros s. unfold _update_url, normal_text, add_log.
    destruct (_normal_url s); simpl;
      destruct (differs _ _); simpl; try reflexivity;
      destruct (START_TIME s =? 0); reflexivity. }
  split; [|split; [|split]].
  - unfold set_hover_url, add_log.
    destruct (String.eqb link ""), (isValid (to_QUrl link)),
      (START_TIME st =? 0); reflexivity.
  - unfold set_hover_url, add_log.
    destruct (String.eqb link ""), (isValid (to_QUrl link)),
      (START_TIME st =? 0); reflexivity.
  - rewrite !Hurl. unfold set_hover_url, add_log, normal_text.
    destruct (String.eqb link ""), (isValid (to_QUrl link)),
      (START_TIME st =? 0); reflexivity.
  - repeat split.
Qed.

(** ** The fragment of the scan *)

Section TheFragment.

Variable TODAY : string.
Variable to_QUrl : string -> QUrl.


End TheFragment.


(** ** Further properties of the ranking scan *)

Lemma scan_returns_bounds previous_url ts : forall rank found0 rank' found',
  scan previous_url ts (rank, found0) = Ok (rank', found') ->
  rank' = rank + Z.of_nat (length (omap snd ts))
  /\ (found' = found0 \/ rank <= found' < rank').
Proof.
  induction ts as [|t ts IH]; intros rank found0 rank' found'.
  - simpl. intros [= <- <-]. split; [simpl; lia | auto].
  - rewrite scan_cons. unfold scan_step.
    destruct (snd t) as [d|] eqn:Ht.
    + assert (Hcons : omap snd (t :: ts) = d :: omap snd ts)
        by (simpl; rewrite Ht; reflexivity).
      rewrite Hcons.
      destruct (first_link d) as [l0|e]; simpl; [|discriminate].
      destruct (py_in previous_url (get "href" l0)) as [hit|e]; simpl;
        [|discriminate].
      intros H. apply IH in H as [Hrank Hfound]. split.
      * change (length (d :: omap snd ts)) with (S (length (omap snd ts))).
        lia.
      * assert (0 <= Z.of_nat (length (omap snd ts))) by lia.
        destruct hit; destruct Hfound as [-> | Hin]; try lia; auto.
    + assert (Hcons : omap snd (t :: ts) = omap snd ts)
        by (simpl; rewrite Ht; reflexivity).
      rewrite Hcons. simpl. apply IH.
Qed.

Lemma length_blocks (soup : html) :
  (length (blocks soup) <= length (result_headings soup))%nat.
Proof.
  unfold blocks. induction (result_headings soup) as [|t ts IH];
    [reflexivity|].
  assert (Hcons : omap snd (t :: ts)
                  = match snd t with
                    | Some d => d :: omap snd ts
                    | None => omap snd ts
                    end) by reflexivity.
  rewrite Hcons. destruct (snd t); simpl length; lia.
Qed.

Lemma ranking_total previous_url (soup : html) r :
  ranking previous_url soup = Ok r ->
  total r = Z.of_nat (length (blocks soup)).
Proof.
  unfold ranking.
  destruct (scan previous_url (result_headings soup) (1, -1))
    as [[rank' found']|e] eqn:Hscan; simpl; [|discriminate].
  intros [= <-]. simpl.
  apply scan_returns_bounds in Hscan as [Hrank _].
  fold (blocks soup) in Hrank. lia.
Qed.

(** X1: whenever the scan returns, whatever the fragment, the total is the
    number of result headings that have an enclosing [div], at most the
    number of result headings, and the found-rank is the sentinel or a
    rank between 1 and the total. *)
Theorem ranking_result_bounds previous_url (soup : html) r :
  ranking previous_url soup = Ok r ->
  total r = Z.of_nat (length (blocks soup))
  /\ total r <= Z.of_nat (length (result_headings soup))
  /\ (found r = -1 \/ 1 <= found r <= total r).
Proof.
  unfold ranking.
  destruct (scan previous_url (result_headings soup) (1, -1))
    as [[rank' found']|e] eqn:Hscan; simpl; [|discriminate].
  intros [= <-]. simpl.
  apply scan_returns_bounds in Hscan as [Hrank Hfound].
  fold (blocks soup) in Hrank. pose proof (length_blocks soup).
  split; [lia|]. split; [lia|]. destruct Hfound; [left | right]; lia.
Qed.

Lemma ranking_result_bounds_witness :
  exists r, ranking (Some "c.org") three_results = Ok r
            /\ total r = 3 /\ (found r = -1 \/ 1 <= found r <= total r).
Proof.
  exists {| found := 3; total := 3; page := "?" |}.
  split; [reflexivity|].
  destruct (ranking_result_bounds (Some "c.org") three_results
              {| found := 3; total := 3; page := "?" |}) as (Ht & _ & Hf).
  - reflexivity.
  - split; [reflexivity | exact Hf].
Defined.

Lemma scan_returns_iff fragment ts : forall acc,
  (exists acc', scan (Some fragment) ts acc = Ok acc')
  <-> Forall (fun d => has_href d = true) (omap snd ts).
Proof.
  induction ts as [|t ts IH]; intros [rank found0].
  - simpl. split; [constructor | eauto].
  - rewrite scan_cons. unfold scan_step.
    destruct (snd t) as [d|] eqn:Ht.
    + assert (Hcons : omap snd (t :: ts) = d :: omap snd ts)
        by (simpl; rewrite Ht; reflexivity).
      rewrite Hcons, Forall_cons. unfold first_link, has_href.
      destruct (find_all "a" d) as [|l0 ?]; simpl.
      { split; [intros [? [=]] | intros [[=] _]]. }
      destruct (get "href" l0) as [[s|ms]|]; simpl.
      * rewrite IH. tauto.
      * rewrite IH. tauto.
      * split; [intros [? [=]] | intros [[=] _]].
    + assert (Hcons : omap snd (t :: ts) = omap snd ts)
        by (simpl; rewrite Ht; reflexivity).
      rewrite Hcons. simpl. apply IH.
Qed.

(** X2: with a string as fragment, the scan returns exactly when every
    result block has a first hyperlink with an [href] attribute; one block
    without makes the whole scan raise, matches found before included. *)
Theorem ranking_returns_iff (fragment : string) (soup : html) :
  (exists r, ranking (Some fragment) soup = Ok r)
  <-> Forall (fun d => has_href d = true) (blocks soup).
Proof.
  unfold blocks. rewrite <- (scan_returns_iff fragment _ (1, -1)).
  unfold ranking. split.
  - intros [r Hr].
    destruct (scan (Some fragment) (result_headings soup) (1, -1));
      [eauto | discriminate].
  - intros [acc ->]. simpl. eauto.
Qed.

Lemma ranking_returns_iff_witness :
  (exists r, ranking (Some "a.org") three_results = Ok r)
  /\ ~ Forall (fun d => has_href d = true)
         (blocks [result_block "http://a.org/"; result_without_link]).
Proof.
  split.
  - apply (ranking_returns_iff "a.org" three_results).
    vm_compute. repeat constructor.
  - intros H.
    apply (ranking_returns_iff "a.org"
             [result_block "http://a.org/"; result_without_link]) in H.
    destruct H as [r Hr]. vm_compute in Hr. discriminate.
Defined.

(** X3: the fragment only bears on the found-rank: for two strings as
    fragment the scan of a page raises the same exception or returns the
    same total and the same page label. *)
Theorem ranking_fragment_only_found (f f' : string) (soup : html) :
  (forall e, ranking (Some f) soup = Raise e ->
             ranking (Some f') soup = Raise e)
  /\ (forall r r', ranking (Some f) soup = Ok r ->
                   ranking (Some f') soup = Ok r' ->
                   total r = total r' /\ page r = page r').
Proof.
  split.
  - intros e He. apply (ranking_raise_any_fragment soup f e He).
  - intros r r' Hr Hr'.
    pose proof (ranking_total _ _ _ Hr) as Ht.
    pose proof (ranking_total _ _ _ Hr') as Ht'.
    split; [congruence|].
    unfold ranking in Hr, Hr'.
    destruct (scan (Some f) _ _); simpl in Hr; [|discriminate].
    destruct (scan (Some f') _ _); simpl in Hr'; [|discriminate].
    injection Hr as <-. injection Hr' as <-. reflexivity.
Qed.

Lemma ranking_fragment_only_found_witness :
  exists r r',
    ranking (Some "a.org") three_results = Ok r
    /\ ranking (Some "zzz") three_results = Ok r'
    /\ total r = total r' /\ page r = page r'.
Proof.
  exists {| found := 1; total := 3; page := "?" |},
         {| found := -1; total := 3; page := "?" |}.
  split; [reflexivity|]. split; [reflexivity|].
  destruct (ranking_fragment_only_found "a.org" "zzz" three_results)
    as [_ H].
  apply H; reflexivity.
Defined.

(** ** The page label *)







(** ** Further properties of the address entry *)

(** X5: whatever is entered, the empty text included, the string handed to
    [QUrl] is the entry itself or the entry behind "http://" or behind the
    search prefix, character for character; it is never empty, and it
    contains a "." and one of the two schemes. *)
Theorem resolve_entry_range (s : string) :
  (resolve_entry s = s
   \/ resolve_entry s = "http://" +:+ s
   \/ resolve_entry s = "http://www.google.com/search?q=" +:+ s)
  /\ resolve_entry s <> ""
  /\ contains "." (resolve_entry s) = true
  /\ (contains "http://" (resolve_entry s) = true
      \/ contains "https://" (resolve_entry s) = true).
Proof.
  split; [|split; [|split]].
  - unfold resolve_entry.
    destruct (contains "." s && _); [auto|].
    destruct (negb (contains "." s)); auto.
  - pose proof (resolve_entry_has_dot s) as H. intros E. rewrite E in H.
    discriminate.
  - apply resolve_entry_has_dot.
  - apply resolve_entry_has_scheme.
Qed.

(** ** What a handler does to each attribute *)

Lemma add_log_appends (st : UrlBar) (e : string) :
  exists new, add_log st e = with_trace st (trace st ++ new).
Proof.
  unfold add_log. destruct (START_TIME st =? 0); [|eauto].
  exists []. rewrite app_nil_r. destruct st; reflexivity.
Qed.

Lemma update_url_fields (s : UrlBar) :
  START_TIME (_update_url s) = START_TIME s
  /\ cur_tab (_update_url s) = cur_tab s
  /\ _hover_url (_update_url s) = _hover_url s
  /\ _normal_url (_update_url s) = _normal_url s
  /\ _normal_url_type (_update_url s) = _normal_url_type s
  /\ _urltype (_update_url s) = Some (class_of s)
  /\ url (_update_url s) = normal_text s
  /\ files (_update_url s) = files s
  /\ last_html (_update_url s) = last_html s
  /\ ignore_first_load (_update_url s) = ignore_first_load s
  /\ exists new, trace (_update_url s) = trace s ++ new.
Proof.
  unfold _update_url, class_of, normal_text, add_log.
  destruct s as [fs tr t0 ig lh pu ut hu nu nt u ct]. simpl.
  destruct nu as [x|]; simpl;
    match goal with |- context [differs ?t pu] => destruct (differs t pu) end;
    simpl; try destruct (t0 =? 0); simpl; repeat split;
    first [ exists []; rewrite app_nil_r; reflexivity
          | eexists; reflexivity ].
Qed.

Section Fields.

Variable TODAY : string.
Variable to_QUrl : string -> QUrl.

Lemma dump_html_fields (st : UrlBar) (h : html) o st' :
  dump_html TODAY st h = Some (o, st') ->
  START_TIME st' = START_TIME st
  /\ cur_tab st' = cur_tab st
  /\ _hover_url st' = _hover_url st
  /\ _normal_url st' = _normal_url st
  /\ _normal_url_type st' = _normal_url_type st
  /\ _urltype st' = _urltype st
  /\ url st' = url st
  /\ previous_url st' = previous_url st
  /\ ignore_first_load st' = ignore_first_load st
  /\ exists new, trace st' = trace st ++ new.
Proof.
  unfold dump_html. destruct (first_free_id TODAY (files st)) as [id|];
    [|discriminate].
  destruct (add_log_appends
              (with_files st (<[capture_path TODAY id := h]> (files st)))
              ("LOAD_FINISHED;" +:+ capture_name TODAY id +:+ ";"
               +:+ url (with_files st
                          (<[capture_path TODAY id := h]> (files st)))))
    as [new ->].
  unfold getGoogleRanking. simpl last_html.
  destruct (last_html st) as [prev|].
  - destruct (ranking _ prev) as [r|e]; simpl.
    + match goal with |- context [add_log ?s ?e] =>
        destruct (add_log_appends s e) as [new' ->] end.
      intros [= <- <-]. simpl. repeat split.
      exists (new ++ new'). symmetry. apply app_assoc.
    + intros [= <- <-]. simpl. repeat split. eauto.
  - intros [= <- <-]. simpl. repeat split. eauto.
Qed.

(** One handler, attribute by attribute. *)
Lemma handle_fields ev st o st' :
  handle TODAY to_QUrl ev st = Some (o, st') ->
  START_TIME st' = START_TIME st
  /\ cur_tab st' = match ev with
                   | TabChanged tab => Some tab
                   | _ => cur_tab st
                   end
  /\ _hover_url st' = match ev with
                      | Hover link => hover_text to_QUrl link
                      | _ => _hover_url st
                      end
  /\ _normal_url st' = match url_set ev with
                       | Some u => stored_url u
                       | None => _normal_url st
                       end
  /\ _normal_url_type st'
     = match ev with
       | TabChanged _ | SetUrl _ => UrlType.normal
       | LoadStatusChanged status => status_type status
       | _ => _normal_url_type st
       end
  /\ _urltype st' = (if is_display ev then Some (class_of st')
                     else _urltype st)
  /\ url st' = match ev with
               | Edit entered => entered
               | _ => if is_display ev then normal_text st' else url st
               end
  /\ (is_load_finished ev = false -> files st' = files st)
  /\ exists new, trace st' = trace st ++ new.
Proof.
  intros H.
  assert (Hplain : forall s : UrlBar,
    (exists new, s = with_trace st (trace st ++ new)) ->
    exists new, trace s = trace st ++ new).
  { intros s [new ->]. eauto. }
  destruct ev; simpl in H.
  - injection H as <- <-. unfold on_tab_changed, on_set_url.
    destruct tab as [[q|]]; simpl; [destruct (isValid q) eqn:Hq|];
      match goal with |- context [_update_url ?s] =>
        destruct (update_url_fields s)
          as (-> & -> & -> & Hn & Ht & -> & -> & -> & _ & _ & Hnew) end;
      unfold class_of, normal_text, stored_url, url_text;
      rewrite ?Hn, ?Ht, ?Hq; simpl; repeat split; exact Hnew.
  - injection H as <- <-. unfold on_set_url.
    destruct u as [q|]; simpl; [destruct (isValid q) eqn:Hq|];
      match goal with |- context [_update_url ?s] =>
        destruct (update_url_fields s)
          as (-> & -> & -> & Hn & Ht & -> & -> & -> & _ & _ & Hnew) end;
      unfold class_of, normal_text, stored_url, url_text;
      rewrite ?Hn, ?Ht, ?Hq; simpl; repeat split; exact Hnew.
  - injection H as <- <-. unfold on_load_status_changed.
    match goal with |- context [_update_url ?s] =>
      destruct (update_url_fields s)
        as (-> & -> & -> & Hn & Ht & -> & -> & -> & _ & _ & Hnew) end.
    unfold class_of, normal_text, status_type.
    rewrite ?Hn, ?Ht. simpl. repeat split. exact Hnew.
  - injection H as <- <-. unfold on_load_started.
    destruct (ignore_first_load st).
    + simpl. repeat split. exists []. symmetry. apply app_nil_r.
    + destruct (add_log_appends st "LOAD STARTED") as [new ->].
      simpl. repeat split. eauto.
  - unfold on_load_finished in H. destruct (cur_tab st) eqn:Hct.
    + destruct (dump_html_fields st h o st' H)
        as (-> & -> & -> & -> & -> & -> & -> & _ & _ & Hnew).
      simpl. repeat split; [exact Hct | discriminate | exact Hnew].
    + injection H as <- <-. simpl. repeat split; [exact Hct|].
      exists []. symmetry. apply app_nil_r.
  - injection H as <- <-. unfold set_hover_url, hover_text.
    destruct (add_log_appends st ("LINK_HOVERED;" +:+ link)) as [new ->].
    destruct (String.eqb link ""); [|destruct (isValid (to_QUrl link))];
      simpl; repeat split; eauto.
  - injection H as <- <-. simpl. repeat split.
    exists []. symmetry. apply app_nil_r.
  - injection H as <- <-.
    match goal with |- context [add_log ?s ?e] =>
      destruct (add_log_appends s e) as [new ->] end.
    simpl. repeat split. eauto.
  - injection H as <- <-. unfold on_request_search.
    destruct (add_log_appends st "AFFICHE_BARRERECHERCHE;") as [new ->].
    simpl. repeat split. eauto.
  - injection H as <- <-. unfold on_search.
    destruct (String.eqb txt "").
    + simpl. repeat split. exists []. symmetry. apply app_nil_r.
    + match goal with |- context [add_log ?s ?e] =>
        destruct (add_log_appends s e) as [new ->] end.
      simpl. repeat split. eauto.
  - injection H as <- <-. unfold on_search_next.
    destruct (String.eqb txt "").
    + simpl. repeat split. exists []. symmetry. apply app_nil_r.
    + match goal with |- context [add_log ?s ?e] =>
        destruct (add_log_appends s e) as [new ->] end.
      simpl. repeat split. eauto.
  - injection H as <- <-. unfold on_search_previous.
    destruct (String.eqb txt "").
    + simpl. repeat split. exists []. symmetry. apply app_nil_r.
    + match goal with |- context [add_log ?s ?e] =>
        destruct (add_log_appends s e) as [new ->] end.
      simpl. repeat split. eauto.
Qed.

End Fields.

(** ** Invariants of the runs *)

Section Invariants.

Variable TODAY : string.
Variable to_QUrl : string -> QUrl.

Lemma run_snoc (evs : list Event) (ev : Event) : forall st st',
  run TODAY to_QUrl (evs ++ [ev]) st = Some st'
  <-> exists st1 o, run TODAY to_QUrl evs st = Some st1
                    /\ handle TODAY to_QUrl ev st1 = Some (o, st').
Proof.
  induction evs as [|e evs IH]; intros st st'; simpl.
  - destruct (handle TODAY to_QUrl ev st) as [[o st1]|] eqn:Hev; split.
    + intros [= <-]. eauto.
    + intros (? & ? & [= <-] & H). congruence.
    + discriminate.
    + intros (? & ? & [= <-] & H). congruence.
  - destruct (handle TODAY to_QUrl e st) as [[o st1]|]; [apply IH|].
    split; [discriminate | intros (? & ? & [=] & _)].
Qed.

(** X6: the trace only grows at its end: no handler removes or rewrites an
    entry, so the trace before a run is a prefix of the trace after it,
    and the START entry stays the first entry of a started widget. *)
Theorem trace_append_only (evs : list Event) (st st' : UrlBar) :
  run TODAY to_QUrl evs st = Some st' ->
  (exists new, trace st' = trace st ++ new)
  /\ (forall now start disk,
        now <> 0 -> st = init now start disk ->
        exists rest, trace st' = ("START;" +:+ start) :: rest).
Proof.
  intros Hrun.
  assert (Hnew : exists new, trace st' = trace st ++ new).
  { revert st st' Hrun. induction evs as [|ev evs IH]; intros st st' Hrun;
      simpl in Hrun.
    - injection Hrun as <-. exists []. symmetry. apply app_nil_r.
    - destruct (handle TODAY to_QUrl ev st) as [[o st1]|] eqn:Hev;
        [|discriminate].
      destruct (handle_fields TODAY to_QUrl ev st o st1 Hev)
        as (_ & _ & _ & _ & _ & _ & _ & _ & new1 & H1).
      destruct (IH st1 st' Hrun) as [new2 H2].
      exists (new1 ++ new2). rewrite H2, H1. symmetry. apply app_assoc. }
  split; [exact Hnew|].
  intros now start disk Hnow ->. destruct Hnew as [new Hnew].
  destruct (init_invariant now start disk Hnow) as (_ & Htr & _).
  rewrite Hnew, Htr. exists new. reflexivity.
Qed.

Lemma handle_files ev st o st' :
  handle TODAY to_QUrl ev st = Some (o, st') ->
  (forall p, is_Some (files st !! p) -> files st' !! p = files st !! p)
  /\ size (files st')
     = (size (files st)
        + (if is_load_finished ev && has_tab st then 1 else 0))%nat.
Proof.
  intros H. destruct (is_load_finished ev) eqn:Hev.
  - destruct ev; try discriminate. simpl in H. unfold on_load_finished in H.
    unfold has_tab. destruct (cur_tab st).
    + destruct (first_free_id_least TODAY (files st))
        as [id [Hid [Hfree _]]].
      destruct (dump_html_files TODAY st h id Hid) as [o' [st2 [H2 Hfiles]]].
      rewrite H2 in H. injection H as <- <-. rewrite Hfiles. split.
      * intros p Hp. apply insert_free_keeps; assumption.
      * simpl. rewrite map_size_insert_None by exact Hfree. lia.
    + injection H as <- <-. simpl. split; [reflexivity | lia].
  - destruct (handle_fields TODAY to_QUrl ev st o st' H)
      as (_ & _ & _ & _ & _ & _ & _ & Hfiles & _).
    rewrite (Hfiles Hev). simpl. split; [reflexivity | lia].
Qed.

Lemma handle_has_tab ev st o st' :
  handle TODAY to_QUrl ev st = Some (o, st') ->
  has_tab st' = (is_tab_changed ev || has_tab st).
Proof.
  intros H. destruct (handle_fields TODAY to_QUrl ev st o st' H)
    as (_ & Hct & _).
  unfold has_tab. rewrite Hct. destruct ev; reflexivity.
Qed.

(** X7: no handler deletes or rewrites a file: every file on the disk
    before a run is there unchanged after it, and the disk has gained one
    file for each load-finished event that found a tab, also for those
    whose scan raised. *)
Theorem files_only_grow (evs : list Event) : forall st st',
  run TODAY to_QUrl evs st = Some st' ->
  (forall p, is_Some (files st !! p) -> files st' !! p = files st !! p)
  /\ size (files st')
     = (size (files st)
        + count_events is_load_finished
            (if has_tab st then evs else after_tab evs))%nat.
Proof.
  induction evs as [|ev evs IH]; intros st st' Hrun; simpl in Hrun.
  - injection Hrun as <-. split; [reflexivity|].
    unfold count_events. destruct (has_tab st); simpl; lia.
  - destruct (handle TODAY to_QUrl ev st) as [[o st1]|] eqn:Hev;
      [|discriminate].
    destruct (handle_files ev st o st1 Hev) as [Hkeep1 Hsize1].
    pose proof (handle_has_tab ev st o st1 Hev) as Htab.
    destruct (IH st1 st' Hrun) as [Hkeep Hsize]. split.
    + intros p Hp. rewrite Hkeep; [apply Hkeep1, Hp|].
      rewrite Hkeep1; exact Hp.
    + rewrite Hsize, Hsize1, Htab.
      destruct (has_tab st), ev; rewrite ?count_events_cons; simpl; lia.
Qed.

Lemma handle_class ev st o st' :
  handle TODAY to_QUrl ev st = Some (o, st') ->
  _normal_url_type st <> UrlType.hover ->
  _normal_url_type st' <> UrlType.hover
  /\ (if is_display ev then _urltype st' = Some (class_of st')
      else _urltype st' = _urltype st /\ class_of st' = class_of st).
Proof.
  intros H Hty. destruct (handle_fields TODAY to_QUrl ev st o st' H)
    as (_ & _ & _ & Hn & Ht & Hu & _).
  split.
  - rewrite Ht. destruct ev; try exact Hty; try discriminate.
    destruct status; discriminate.
  - destruct (is_display ev) eqn:Hd; [exact Hu|].
    split; [exact Hu|]. unfold class_of. rewrite Hn, Ht.
    destruct ev; try discriminate; reflexivity.
Qed.

(** X8: in every state a widget reaches, the classification of the field
    is unset before the first display update and afterwards is the type of
    the normal URL, or normal when there is no normal URL; it is never the
    hover type. *)
Theorem classification_in_sync
    (now : Z) (start : string) (disk : gmap string html)
    (evs : list Event) (st : UrlBar) :
  run TODAY to_QUrl evs (init now start disk) = Some st ->
  _urltype st = (if existsb is_display evs then Some (class_of st) else None)
  /\ _urltype st <> Some UrlType.hover
  /\ _normal_url_type st <> UrlType.hover.
Proof.
  revert st. induction evs as [|ev evs IH] using rev_ind; intros st Hrun.
  - injection Hrun as <-. unfold init, add_log. simpl.
    destruct (now =? 0); repeat split; discriminate.
  - apply run_snoc in Hrun as (st1 & o & Hrun & Hev).
    destruct (IH st1 Hrun) as (Hu1 & _ & Hty1).
    destruct (handle_class ev st1 o st Hev Hty1) as [Hty Hu].
    rewrite existsb_app. simpl. rewrite orb_false_r.
    assert (Hsync : _urltype st
                    = if existsb is_display evs || is_display ev
                      then Some (class_of st) else None).
    { destruct (is_display ev).
      - rewrite orb_true_r. exact Hu.
      - destruct Hu as [-> Hc]. rewrite orb_false_r, Hu1, Hc. reflexivity. }
    split; [exact Hsync|]. split; [|exact Hty].
    rewrite Hsync. destruct (existsb is_display evs || is_display ev);
      [|discriminate].
    unfold class_of. destruct (_normal_url st); [congruence | discriminate].
Qed.

Lemma last_hover_snoc (evs : list Event) (ev : Event) :
  last_hover (evs ++ [ev])
  = match ev with
    | Hover link => Some link
    | _ => last_hover evs
    end.
Proof.
  unfold last_hover. rewrite omap_app, last_app. destruct ev; reflexivity.
Qed.

(** X9: the stored hover text always is that of the last hover event,
    whatever happened since: none before the first hover event and after a
    hover with the empty link, the display string of a valid link, and
    the marked raw text of an invalid one. *)
Theorem hover_url_is_last_hover
    (now : Z) (start : string) (disk : gmap string html)
    (evs : list Event) (st : UrlBar) :
  run TODAY to_QUrl evs (init now start disk) = Some st ->
  _hover_url st = match last_hover evs with
                  | Some link => hover_text to_QUrl link
                  | None => None
                  end.
Proof.
  revert st. induction evs as [|ev evs IH] using rev_ind; intros st Hrun.
  - injection Hrun as <-. unfold init, add_log. simpl.
    destruct (now =? 0); reflexivity.
  - apply run_snoc in Hrun as (st1 & o & Hrun & Hev).
    destruct (handle_fields TODAY to_QUrl ev st1 o st Hev)
      as (_ & _ & Hh & _).
    rewrite Hh, last_hover_snoc, (IH st1 Hrun). destruct ev; reflexivity.
Qed.


Lemma handle_started ev st o st' :
  handle TODAY to_QUrl ev st = Some (o, st') ->
  START_TIME st <> 0 -> START_TIME st' <> 0.
Proof.
  intros H Hs. destruct (handle_fields TODAY to_QUrl ev st o st' H) as [-> _].
  exact Hs.
Qed.

(** X11: a widget has a tab exactly when a tab change has occurred; before
    that a load-finished event raises AttributeError and changes nothing,
    and from then on the fragment of the scan is a string, never [None]. *)
Theorem tab_gives_fragment
    (now : Z) (start : string) (disk : gmap string html)
    (evs : list Event) (st : UrlBar) :
  now <> 0 ->
  run TODAY to_QUrl evs (init now start disk) = Some st ->
  has_tab st = existsb is_tab_changed evs
  /\ (has_tab st = true -> exists f, previous_url st = Some f)
  /\ (has_tab st = false ->
      forall h, handle TODAY to_QUrl (LoadFinished h) st
                = Some (Raised AttributeError, st)).
Proof.
  intros Hnow Hrun.
  destruct (init_invariant now start disk Hnow)
    as (H0 & _ & _ & _ & _ & Hl0 & _ & Ht0).
  split; [|split].
  - clear H0 Hl0. revert st Hrun.
    induction evs as [|ev evs IH] using rev_ind; intros st Hrun.
    + injection Hrun as <-. exact Ht0.
    + apply run_snoc in Hrun as (st1 & o & Hrun & Hev).
      rewrite (handle_has_tab ev st1 o st Hev), (IH st1 Hrun), existsb_app.
      simpl. rewrite orb_false_r. apply orb_comm.
  - intros Htab.
    destruct (run_load_invariant TODAY to_QUrl evs (init now start disk)
                st None) as [_ [Hfrag _]].
    + congruence.
    + split; [rewrite Ht0; discriminate | left; exact Hl0].
    + exact Hrun.
    + destruct (previous_url st) as [f|]; [eauto|].
      contradiction (Hfrag Htab). reflexivity.
  - intros Htab h. simpl. unfold on_load_finished. unfold has_tab in Htab.
    destruct (cur_tab st); [discriminate | reflexivity].
Qed.

Lemma handle_stuck ev st o st' bad e :
  handle TODAY to_QUrl ev st = Some (o, st') ->
  START_TIME st <> 0 -> has_tab st = true -> previous_url st <> None ->
  last_html st = Some bad ->
  (forall f, ranking (Some f) bad = Raise e) ->
  has_tab st' = true /\ previous_url st' <> None
  /\ last_html st' = Some bad.
Proof.
  intros H Hs Htab Hprev Hlast Hbad.
  split; [|split].
  - rewrite (handle_has_tab ev st o st' H), Htab. apply orb_true_r.
  - destruct (handle_texts TODAY to_QUrl ev st o st' Hs H) as [_ [-> | ->]];
      [exact Hprev | discriminate].
  - destruct (is_load_finished ev) eqn:Hev.
    + destruct ev; try discriminate. simpl in H. unfold on_load_finished in H.
      unfold has_tab in Htab. destruct (cur_tab st); [|discriminate].
      destruct (first_free_id_least TODAY (files st)) as [id [Hid _]].
      rewrite (dump_html_started TODAY st h id Hs Hid) in H. cbv zeta in H.
      rewrite Hlast in H.
      destruct (previous_url st) as [f|]; [|contradiction Hprev; auto].
      rewrite Hbad in H. injection H as <- <-. exact Hlast.
    + rewrite (handle_last_html TODAY to_QUrl ev st o st' Hs H Hev).
      exact Hlast.
Qed.

(** X12: once the stored page is one on which the scan raises, it stays the
    stored page for the rest of the run, and every later load-finished
    event raises the same exception again: no page is scanned and no RANK
    entry is written any more. *)
Theorem scan_failure_persists
    (st : UrlBar) (f : string) (bad : html) (e : exn)
    (evs : list Event) (st' : UrlBar) :
  START_TIME st <> 0 -> has_tab st = true ->
  previous_url st = Some f -> last_html st = Some bad ->
  ranking (Some f) bad = Raise e ->
  run TODAY to_QUrl evs st = Some st' ->
  last_html st' = Some bad
  /\ forall h, exists st'',
       handle TODAY to_QUrl (LoadFinished h) st' = Some (Raised e, st'').
Proof.
  intros Hs Htab Hf Hlast Hr Hrun.
  pose proof (ranking_raise_any_fragment bad f e Hr) as Hbad.
  assert (Hprev : previous_url st <> None) by (rewrite Hf; discriminate).
  clear Hf Hr.
  assert (Hinv : START_TIME st' <> 0 /\ has_tab st' = true
                 /\ previous_url st' <> None /\ last_html st' = Some bad).
  { revert st Hs Htab Hprev Hlast Hrun.
    induction evs as [|ev evs IH]; intros st Hs Htab Hprev Hlast Hrun;
      simpl in Hrun.
    - injection Hrun as <-. auto.
    - destruct (handle TODAY to_QUrl ev st) as [[o st1]|] eqn:Hev;
        [|discriminate].
      destruct (handle_stuck ev st o st1 bad e Hev Hs Htab Hprev Hlast Hbad)
        as (Htab1 & Hprev1 & Hlast1).
      apply (IH st1); try assumption.
      apply (handle_started ev st o st1 Hev Hs). }
  destruct Hinv as (Hs' & Htab' & Hprev' & Hlast').
  split; [exact Hlast'|]. intros h. simpl. unfold on_load_finished.
  unfold has_tab in Htab'. destruct (cur_tab st'); [|discriminate].
  destruct (first_free_id_least TODAY (files st')) as [id [Hid _]].
  rewrite (dump_html_started TODAY st' h id Hs' Hid). cbv zeta.
  rewrite Hlast'.
  destruct (previous_url st') as [f'|]; [|contradiction Hprev'; auto].
  rewrite Hbad. eauto.
Qed.

Lemma handle_url_changes ev st o st' :
  START_TIME st <> 0 -> handle TODAY to_QUrl ev st = Some (o, st') ->
  exists new,
    trace st' = trace st ++ new
    /\ ((url_changes new = [] /\ previous_url st' = previous_url st)
        \/ exists t, url_changes new = [t]
                     /\ differs t (previous_url st) = true
                     /\ previous_url st' = Some t).
Proof.
  intros Hs H.
  assert (Hdisplay : forall d, exists new,
    trace (display st d) = trace st ++ new
    /\ ((url_changes new = []
         /\ previous_url (display st d) = previous_url st)
        \/ exists t, url_changes new = [t]
                     /\ differs t (previous_url st) = true
                     /\ previous_url (display st d) = Some t)).
  { intros d. destruct (display_effect st d Hs) as (_ & Hp & Ht & _).
    rewrite Ht, Hp. destruct (differs _ _) eqn:Hd; eexists;
      (split; [reflexivity|]).
    - right. eexists. split; [reflexivity | auto].
    - left. apply differs_false in Hd. split; [reflexivity | congruence]. }
  assert (Hquiet : forall (s : UrlBar) new,
    trace s = trace st ++ new -> url_changes new = [] ->
    previous_url s = previous_url st ->
    exists new, trace s = trace st ++ new
      /\ ((url_changes new = [] /\ previous_url s = previous_url st)
          \/ exists t, url_changes new = [t]
                       /\ differs t (previous_url st) = true
                       /\ previous_url s = Some t)).
  { intros s new H1 H2 H3. exists new. auto. }
  destruct ev; simpl in H; try (injection H as <- <-);
    try apply (Hdisplay (ShowTab tab));
    try apply (Hdisplay (ShowUrl u));
    try apply (Hdisplay (ShowStatus status)); clear Hdisplay.
  - apply Z.eqb_neq in Hs. unfold on_load_started, add_log.
    destruct (ignore_first_load st).
    + apply (Hquiet _ []); [symmetry; apply app_nil_r | |]; reflexivity.
    + rewrite Hs. apply (Hquiet _ ["LOAD STARTED"]); reflexivity.
  - unfold on_load_finished in H. destruct (cur_tab st).
    + destruct (first_free_id_least TODAY (files st)) as [id [Hid _]].
      rewrite (dump_html_started TODAY st h id Hs Hid) in H. cbv zeta in H.
      destruct (last_html st) as [prev|];
        [destruct (ranking (previous_url st) prev) as [r|e]|];
        injection H as <- <-; eapply Hquiet; reflexivity.
    + injection H as <- <-.
      apply (Hquiet _ []); [symmetry; apply app_nil_r | |]; reflexivity.
  - apply Z.eqb_neq in Hs. unfold set_hover_url, add_log. rewrite Hs.
    destruct (String.eqb link ""); [|destruct (isValid (to_QUrl link))];
      apply (Hquiet _ ["LINK_HOVERED;" +:+ link]); reflexivity.
  - apply (Hquiet _ []); [symmetry; apply app_nil_r | |]; reflexivity.
  - apply Z.eqb_neq in Hs. unfold on_press_enter, add_log. rewrite Hs.
    apply (Hquiet _ ["SAISIE_BARREADRESSE;" +:+ url st]); reflexivity.
  - apply Z.eqb_neq in Hs. unfold on_request_search, add_log.
    rewrite Hs. apply (Hquiet _ ["AFFICHE_BARRERECHERCHE;"]); reflexivity.
  - apply Z.eqb_neq in Hs. unfold on_search, add_log.
    destruct (String.eqb txt "").
    + apply (Hquiet _ []); [symmetry; apply app_nil_r | |]; reflexivity.
    + rewrite Hs.
      apply (Hquiet _ ["LANCERECHERCHE_BARRERECHERCHE;" +:+ txt]);
        reflexivity.
  - apply Z.eqb_neq in Hs. unfold on_search_next, add_log.
    destruct (String.eqb txt "").
    + apply (Hquiet _ []); [symmetry; apply app_nil_r | |]; reflexivity.
    + rewrite Hs.
      apply (Hquiet _ ["LANCERECHERCHE_BARRERECHERCHE_SUIVANT;" +:+ txt]);
        reflexivity.
  - apply Z.eqb_neq in Hs. unfold on_search_previous, add_log.
    destruct (String.eqb txt "").
    + apply (Hquiet _ []); [symmetry; apply app_nil_r | |]; reflexivity.
    + rewrite Hs.
      apply (Hquiet _ ["LANCERECHERCHE_BARRERECHERCHE_PRECEDENT;" +:+ txt]);
        reflexivity.
Qed.

Lemma adjacent_distinct_snoc (l : list string) (t : string) :
  adjacent_distinct l -> differs t (last l) = true ->
  adjacent_distinct (l ++ [t]).
Proof.
  intros Hl Hd i x y Hx Hy.
  destruct (decide (S i < length l)%nat) as [Hlt | Hge].
  - rewrite lookup_app_l in Hx by lia. rewrite lookup_app_l in Hy by lia.
    apply (Hl i x y Hx Hy).
  - assert (Hi : S i = length l).
    { apply lookup_lt_Some in Hy. rewrite length_app in Hy. simpl in Hy.
      lia. }
    rewrite lookup_app_l in Hx by lia.
    rewrite lookup_app_r in Hy by lia.
    replace (S i - length l)%nat with 0%nat in Hy by lia.
    injection Hy as <-.
    assert (Hlast : last l = Some x).
    { rewrite last_lookup. rewrite <- Hi. simpl. exact Hx. }
    rewrite Hlast in Hd. simpl in Hd. intros ->.
    rewrite String.eqb_refl in Hd. discriminate.
Qed.

(** X13: in the trace of a run no two URL_CHANGED entries that follow each
    other carry the same text, whatever other events and entries come in
    between. *)
Theorem url_changed_never_repeats
    (now : Z) (start : string) (disk : gmap string html)
    (evs : list Event) (st : UrlBar) :
  now <> 0 ->
  run TODAY to_QUrl evs (init now start disk) = Some st ->
  adjacent_distinct (url_changes (trace st)).
Proof.
  intros Hnow Hrun.
  assert (Hinv : START_TIME st <> 0
                 /\ last (url_changes (trace st)) = previous_url st
                 /\ adjacent_distinct (url_changes (trace st)));
    [|apply Hinv].
  revert st Hrun. induction evs as [|ev evs IH] using rev_ind; intros st Hrun.
  - injection Hrun as <-.
    destruct (init_invariant now start disk Hnow)
      as (H0 & Htr & _ & Hp & _).
    rewrite H0, Htr, Hp. split; [exact Hnow|]. split; [reflexivity|].
    intros i x y Hx. destruct i; discriminate.
  - apply run_snoc in Hrun as (st1 & o & Hrun & Hev).
    destruct (IH st1 Hrun) as (Hs1 & Hlast1 & Hadj1).
    split; [apply (handle_started ev st1 o st Hev Hs1)|].
    destruct (handle_url_changes ev st1 o st Hs1 Hev)
      as (new & Htr & [[Hnone Hp] | (t & Hone & Hd & Hp)]);
      unfold url_changes in *; rewrite Htr, omap_app.
    + rewrite Hnone, app_nil_r, Hp. auto.
    + rewrite Hone, last_snoc, Hp. split; [reflexivity|].
      apply adjacent_distinct_snoc; [exact Hadj1|]. rewrite Hlast1. exact Hd.
Qed.

End Invariants.

(** ** The invariants at sample runs *)

Lemma trace_append_only_witness :
  exists new,
    trace (set_hover_url sample_QUrl
             (on_load_started (on_load_started (fresh_widget ∅))) "")
    = trace (fresh_widget ∅) ++ new.
Proof.
  destruct (trace_append_only sample_day sample_QUrl
              [LoadStarted; LoadStarted; Hover ""] (fresh_widget ∅)
              (set_hover_url sample_QUrl
                 (on_load_started (on_load_started (fresh_widget ∅))) ""))
    as [H _].
  - reflexivity.
  - exact H.
Defined.

Lemma files_only_grow_witness :
  exists st',
    run sample_day sample_QUrl
        [LoadFinished []; TabChanged (mkTab None); LoadFinished three_results]
        (fresh_widget ∅) = Some st'
    /\ size (files st') = 1%nat.
Proof.
  destruct (run_total sample_day sample_QUrl
              [LoadFinished []; TabChanged (mkTab None);
               LoadFinished three_results] (fresh_widget ∅)) as [st' H].
  exists st'. split; [exact H|].
  destruct (files_only_grow sample_day sample_QUrl
              [LoadFinished []; TabChanged (mkTab None);
               LoadFinished three_results] (fresh_widget ∅) st' H)
    as [_ Hsize].
  rewrite Hsize. reflexivity.
Defined.

Lemma classification_in_sync_witness :
  _urltype
    (set_hover_url sample_QUrl
       (on_load_status_changed
          (on_set_url (fresh_widget ∅) (Some (mkQUrl true "http://a.org/")))
          LoadStatus.success_https)
       "http://b.org/")
  = Some UrlType.success_https.
Proof.
  destruct (classification_in_sync sample_day sample_QUrl 1000
              "2026-11-04 10:00" ∅
              [SetUrl (Some (mkQUrl true "http://a.org/"));
               LoadStatusChanged LoadStatus.success_https;
               Hover "http://b.org/"]
              (set_hover_url sample_QUrl
                 (on_load_status_changed
                    (on_set_url (fresh_widget ∅)
                       (Some (mkQUrl true "http://a.org/")))
                    LoadStatus.success_https)
                 "http://b.org/")) as [H _].
  - reflexivity.
  - rewrite H. reflexivity.
Defined.

Lemma hover_url_is_last_hover_witness :
  _hover_url
    (set_hover_url sample_QUrl
       (on_load_started
          (set_hover_url sample_QUrl (fresh_widget ∅) "http://a.org/"))
       "")
  = None.
Proof.
  rewrite (hover_url_is_last_hover sample_day sample_QUrl 1000
             "2026-11-04 10:00" ∅
             [Hover "http://a.org/"; LoadStarted; Hover ""]).
  - reflexivity.
  - reflexivity.
Defined.


Lemma tab_gives_fragment_witness :
  exists f,
    previous_url (on_tab_changed (fresh_widget ∅) (mkTab None)) = Some f.
Proof.
  destruct (tab_gives_fragment sample_day sample_QUrl 1000
              "2026-11-04 10:00" ∅ [TabChanged (mkTab None)]
              (on_tab_changed (fresh_widget ∅) (mkTab None)))
    as (_ & H & _).
  - lia.
  - reflexivity.
  - apply H. reflexivity.
Defined.

Lemma scan_failure_persists_witness :
  last_html
    (set_hover_url sample_QUrl
       (with_cur_tab
          (with_last_html
             (with_previous_url (fresh_widget ∅) (Some "a.org"))
             (Some [result_without_link]))
          (Some (mkTab None)))
       "http://b.org/")
  = Some [result_without_link]
  /\ exists st'',
       handle sample_day sample_QUrl (LoadFinished three_results)
         (set_hover_url sample_QUrl
            (with_cur_tab
               (with_last_html
                  (with_previous_url (fresh_widget ∅) (Some "a.org"))
                  (Some [result_without_link]))
               (Some (mkTab None)))
            "http://b.org/")
       = Some (Raised IndexError, st'').
Proof.
  destruct (scan_failure_persists sample_day sample_QUrl
              (with_cur_tab
                 (with_last_html
                    (with_previous_url (fresh_widget ∅) (Some "a.org"))
                    (Some [result_without_link]))
                 (Some (mkTab None)))
              "a.org" [result_without_link] IndexError
              [Hover "http://b.org/"]
              (set_hover_url sample_QUrl
                 (with_cur_tab
                    (with_last_html
                       (with_previous_url (fresh_widget ∅) (Some "a.org"))
                       (Some [result_without_link]))
                    (Some (mkTab None)))
                 "http://b.org/")) as [Hlast Hraise].
  - simpl. lia.
  - reflexivity.
  - reflexivity.
  - reflexivity.
  - reflexivity.
  - reflexivity.
  - split; [exact Hlast | apply Hraise].
Defined.

Lemma url_changed_never_repeats_witness :
  adjacent_distinct
    (url_changes
       (trace
          (on_set_url
             (on_set_url
                (on_set_url (fresh_widget ∅)
                   (Some (mkQUrl true "http://a.org/")))
                (Some (mkQUrl true "http://a.org/")))
             (Some (mkQUrl true "http://b.org/"))))).
Proof.
  apply (url_changed_never_repeats sample_day sample_QUrl 1000
           "2026-11-04 10:00" ∅
           [SetUrl (Some (mkQUrl true "http://a.org/"));
            SetUrl (Some (mkQUrl true "http://a.org/"));
            SetUrl (Some (mkQUrl true "http://b.org/"))]).
  - lia.
  - reflexivity.
Defined.

(** ** The entries of the trace *)

Lemma count_tag_app (tag : string) (tr new : list string) :
  count_tag tag (tr ++ new) = (count_tag tag tr + count_tag tag new)%nat.
Proof. unfold count_tag. rewrite List.filter_app. apply length_app. Qed.

Lemma rank_after_load_app (tr new : list string) : forall b,
  rank_after_load b tr = true ->
  (forall b', rank_after_load b' new = true) ->
  rank_after_load b (tr ++ new) = true.
Proof.
  induction tr as [|e tr IH]; intros b Htr Hnew; simpl; [apply Hnew|].
  simpl in Htr. apply andb_true_iff in Htr as [He Htr].
  rewrite He. simpl. apply IH; assumption.
Qed.

Lemma rank_after_load_lookup (tr : list string) : forall b (i : nat) e,
  rank_after_load b tr = true ->
  tr !! S i = Some e -> starts_with "RANK;" e = true ->
  exists lf, tr !! i = Some lf /\ starts_with "LOAD_FINISHED;" lf = true.
Proof.
  induction tr as [|x tr IH]; intros b i e Htr Hi He; [discriminate|].
  simpl in Htr. apply andb_true_iff in Htr as [_ Htr].
  destruct i as [|i]; simpl in Hi.
  - destruct tr as [|y tr]; [discriminate|]. injection Hi as ->.
    simpl in Htr. rewrite He in Htr. simpl in Htr.
    apply andb_true_iff in Htr as [Hx _]. exists x. auto.
  - apply (IH _ i e Htr Hi He).
Qed.

Section Entries.

Variable TODAY : string.
Variable to_QUrl : string -> QUrl.

(** The entries one handler appends, tag by tag. *)
Lemma handle_tags ev st o st' :
  START_TIME st <> 0 -> handle TODAY to_QUrl ev st = Some (o, st') ->
  exists new,
    trace st' = trace st ++ new
    /\ count_tag "SAISIE_BARREADRESSE;" new
       = (if is_press_enter ev then 1 else 0)%nat
    /\ count_tag "LINK_HOVERED;" new = (if is_hover ev then 1 else 0)%nat
    /\ count_tag "AFFICHE_BARRERECHERCHE;" new
       = (if is_request_search ev then 1 else 0)%nat
    /\ count_tag "LANCERECHERCHE_BARRERECHERCHE" new
       = (if is_search ev then 1 else 0)%nat
    /\ (forall b, rank_after_load b new = true).
Proof.
  intros Hs H.
  assert (Hdisplay : forall d, exists new,
    trace (display st d) = trace st ++ new
    /\ count_tag "SAISIE_BARREADRESSE;" new = 0%nat
    /\ count_tag "LINK_HOVERED;" new = 0%nat
    /\ count_tag "AFFICHE_BARRERECHERCHE;" new = 0%nat
    /\ count_tag "LANCERECHERCHE_BARRERECHERCHE" new = 0%nat
    /\ (forall b, rank_after_load b new = true)).
  { intros d. destruct (display_effect st d Hs) as (_ & _ & Ht & _).
    rewrite Ht. destruct (differs _ _); eexists;
      (split; [reflexivity|]); repeat split; intros []; reflexivity. }
  assert (Hnew : forall (s : UrlBar) new c1 c2 c3 c4,
    trace s = trace st ++ new ->
    count_tag "SAISIE_BARREADRESSE;" new = c1 ->
    count_tag "LINK_HOVERED;" new = c2 ->
    count_tag "AFFICHE_BARRERECHERCHE;" new = c3 ->
    count_tag "LANCERECHERCHE_BARRERECHERCHE" new = c4 ->
    (forall b, rank_after_load b new = true) ->
    exists new,
      trace s = trace st ++ new
      /\ count_tag "SAISIE_BARREADRESSE;" new = c1
      /\ count_tag "LINK_HOVERED;" new = c2
      /\ count_tag "AFFICHE_BARRERECHERCHE;" new = c3
      /\ count_tag "LANCERECHERCHE_BARRERECHERCHE" new = c4
      /\ (forall b, rank_after_load b new = true)).
  { intros s new c1 c2 c3 c4 ? ? ? ? ? ?. exists new. auto 10. }
  destruct ev; simpl in H; try (injection H as <- <-);
    try apply (Hdisplay (ShowTab tab));
    try apply (Hdisplay (ShowUrl u));
    try apply (Hdisplay (ShowStatus status)); clear Hdisplay.
  - apply Z.eqb_neq in Hs. unfold on_load_started, add_log.
    destruct (ignore_first_load st).
    + apply (Hnew _ []); [symmetry; apply app_nil_r | ..];
        try reflexivity; intros []; reflexivity.
    + rewrite Hs. apply (Hnew _ ["LOAD STARTED"]);
        try reflexivity; intros []; reflexivity.
  - unfold on_load_finished in H. destruct (cur_tab st).
    + destruct (first_free_id_least TODAY (files st)) as [id [Hid _]].
      rewrite (dump_html_started TODAY st h id Hs Hid) in H. cbv zeta in H.
      destruct (last_html st) as [prev|];
        [destruct (ranking (previous_url st) prev) as [r|e]|];
        injection H as <- <-; eapply Hnew;
        try reflexivity; intros []; reflexivity.
    + injection H as <- <-.
      apply (Hnew _ []); [symmetry; apply app_nil_r | ..];
        try reflexivity; intros []; reflexivity.
  - apply Z.eqb_neq in Hs. unfold set_hover_url, add_log. rewrite Hs.
    destruct (String.eqb link ""); [|destruct (isValid (to_QUrl link))];
      apply (Hnew _ ["LINK_HOVERED;" +:+ link]);
      try reflexivity; intros []; reflexivity.
  - apply (Hnew _ []); [symmetry; apply app_nil_r | ..];
      try reflexivity; intros []; reflexivity.
  - apply Z.eqb_neq in Hs. unfold on_press_enter, add_log. rewrite Hs.
    apply (Hnew _ ["SAISIE_BARREADRESSE;" +:+ url st]);
      try reflexivity; intros []; reflexivity.
  - apply Z.eqb_neq in Hs. unfold on_request_search, add_log.
    rewrite Hs. apply (Hnew _ ["AFFICHE_BARRERECHERCHE;"]);
      try reflexivity; intros []; reflexivity.
  - apply Z.eqb_neq in Hs. unfold on_search, add_log. cbn [is_search].
    destruct (String.eqb txt "").
    + apply (Hnew _ []); [symmetry; apply app_nil_r | ..];
        try reflexivity; intros []; reflexivity.
    + rewrite Hs.
      apply (Hnew _ ["LANCERECHERCHE_BARRERECHERCHE;" +:+ txt]);
        try reflexivity; intros []; reflexivity.
  - apply Z.eqb_neq in Hs. unfold on_search_next, add_log. cbn [is_search].
    destruct (String.eqb txt "").
    + apply (Hnew _ []); [symmetry; apply app_nil_r | ..];
        try reflexivity; intros []; reflexivity.
    + rewrite Hs.
      apply (Hnew _ ["LANCERECHERCHE_BARRERECHERCHE_SUIVANT;" +:+ txt]);
        try reflexivity; intros []; reflexivity.
  - apply Z.eqb_neq in Hs. unfold on_search_previous, add_log. cbn [is_search].
    destruct (String.eqb txt "").
    + apply (Hnew _ []); [symmetry; apply app_nil_r | ..];
        try reflexivity; intros []; reflexivity.
    + rewrite Hs.
      apply (Hnew _ ["LANCERECHERCHE_BARRERECHERCHE_PRECEDENT;" +:+ txt]);
        try reflexivity; intros []; reflexivity.
Qed.

Lemma run_tags (evs : list Event) : forall st st',
  START_TIME st <> 0 -> run TODAY to_QUrl evs st = Some st' ->
  exists new,
    trace st' = trace st ++ new
    /\ count_tag "SAISIE_BARREADRESSE;" new = count_events is_press_enter evs
    /\ count_tag "LINK_HOVERED;" new = count_events is_hover evs
    /\ count_tag "AFFICHE_BARRERECHERCHE;" new
       = count_events is_request_search evs
    /\ count_tag "LANCERECHERCHE_BARRERECHERCHE" new
       = count_events is_search evs
    /\ (forall b, rank_after_load b new = true).
Proof.
  induction evs as [|ev evs IH]; intros st st' Hs Hrun; simpl in Hrun.
  - injection Hrun as <-. exists []. rewrite app_nil_r. repeat split.
  - destruct (handle TODAY to_QUrl ev st) as [[o st1]|] eqn:Hev;
      [|discriminate].
    destruct (handle_tags ev st o st1 Hs Hev)
      as (new1 & Htr1 & Ha1 & Hb1 & Hc1 & Hd1 & Hr1).
    destruct (IH st1 st' (handle_started TODAY to_QUrl ev st o st1 Hev Hs)
                Hrun)
      as (new2 & Htr2 & Ha2 & Hb2 & Hc2 & Hd2 & Hr2).
    exists (new1 ++ new2). rewrite Htr2, Htr1, <- app_assoc.
    rewrite !count_tag_app, !count_events_cons, Ha1, Ha2, Hb1, Hb2, Hc1,
      Hc2, Hd1, Hd2.
    repeat split. intros b. apply rank_after_load_app; auto.
Qed.

(** X14: in the trace of a started widget every confirmation of the address
    field has one SAISIE_BARREADRESSE entry, every hover event, the one
    that clears the hover included, one LINK_HOVERED entry, every opening
    of the search box one AFFICHE_BARRERECHERCHE entry and every search
    with some text in the search field one LANCERECHERCHE_BARRERECHERCHE
    entry; no other event writes an entry with one of these tags, searches
    with an empty field and edits of the address field are not logged. *)
Theorem user_actions_logged_once
    (now : Z) (start : string) (disk : gmap string html)
    (evs : list Event) (st : UrlBar) :
  now <> 0 ->
  run TODAY to_QUrl evs (init now start disk) = Some st ->
  count_tag "SAISIE_BARREADRESSE;" (trace st)
  = count_events is_press_enter evs
  /\ count_tag "LINK_HOVERED;" (trace st) = count_events is_hover evs
  /\ count_tag "AFFICHE_BARRERECHERCHE;" (trace st)
     = count_events is_request_search evs
  /\ count_tag "LANCERECHERCHE_BARRERECHERCHE" (trace st)
     = count_events is_search evs.
Proof.
  intros Hnow Hrun.
  destruct (init_invariant now start disk Hnow) as (H0 & Htr & _).
  destruct (run_tags evs (init now start disk) st)
    as (new & Hnew & Ha & Hb & Hc & Hd & _); [congruence | exact Hrun |].
  rewrite Hnew, Htr, !count_tag_app, Ha, Hb, Hc, Hd.
  repeat split.
Qed.

(** X15: in the trace of a started widget every RANK entry comes right after
    a LOAD_FINISHED entry: the rank is always logged next to the capture of
    the load that triggered the scan. *)
Theorem rank_entry_follows_load_finished
    (now : Z) (start : string) (disk : gmap string html)
    (evs : list Event) (st : UrlBar) (i : nat) (e : string) :
  now <> 0 ->
  run TODAY to_QUrl evs (init now start disk) = Some st ->
  trace st !! i = Some e -> starts_with "RANK;" e = true ->
  exists (j : nat) lf,
    i = S j /\ trace st !! j = Some lf
    /\ starts_with "LOAD_FINISHED;" lf = true.
Proof.
  intros Hnow Hrun Hi He.
  destruct (init_invariant now start disk Hnow) as (H0 & Htr & _).
  destruct (run_tags evs (init now start disk) st)
    as (new & Hnew & _ & _ & _ & _ & Hr); [congruence | exact Hrun |].
  assert (Hall : rank_after_load false (trace st) = true).
  { rewrite Hnew, Htr. simpl. apply Hr. }
  destruct i as [|j].
  - rewrite Hnew, Htr in Hi. injection Hi as <-. discriminate He.
  - destruct (rank_after_load_lookup _ false j e Hall Hi He) as [lf Hlf].
    exists j, lf. split; [reflexivity | exact Hlf].
Qed.

End Entries.

Lemma user_actions_logged_once_witness :
  count_tag "LINK_HOVERED;"
    (trace
       (on_search
          (set_hover_url sample_QUrl
             (fst (on_press_enter
                     (set_hover_url sample_QUrl (fresh_widget ∅)
                        "http://a.org/")))
             "")
          ""))
  = 2%nat.
Proof.
  destruct (user_actions_logged_once sample_day sample_QUrl 1000
              "2026-11-04 10:00" ∅
              [Hover "http://a.org/"; PressEnter; Hover ""; Search ""]
              (on_search
                 (set_hover_url sample_QUrl
                    (fst (on_press_enter
                            (set_hover_url sample_QUrl (fresh_widget ∅)
                               "http://a.org/")))
                    "")
                 "")) as (_ & H & _).
  - lia.
  - reflexivity.
  - rewrite H. reflexivity.
Defined.

Lemma rank_entry_follows_load_finished_witness :
  exists st (j : nat) lf,
    run sample_day sample_QUrl
        [TabChanged (mkTab (Some (mkQUrl true "http://b.org/x")));
         LoadFinished three_results; LoadFinished []]
        (fresh_widget ∅) = Some st
    /\ trace st !! j = Some lf
    /\ starts_with "LOAD_FINISHED;" lf = true.
Proof.
  destruct (run_total sample_day sample_QUrl
              [TabChanged (mkTab (Some (mkQUrl true "http://b.org/x")));
               LoadFinished three_results; LoadFinished []]
              (fresh_widget ∅)) as [st Hrun].
  assert (Htr : trace st !! 4%nat = Some "RANK;2;SUR:;3;PAGE;?").
  { assert (H : Some st
                = run sample_day sample_QUrl
                    [TabChanged (mkTab (Some (mkQUrl true "http://b.org/x")));
                     LoadFinished three_results; LoadFinished []]
                    (fresh_widget ∅)) by (symmetry; exact Hrun).
    vm_compute in H. injection H as ->. reflexivity. }
  destruct (rank_entry_follows_load_finished sample_day sample_QUrl 1000
              "2026-11-04 10:00" ∅ _ st 4%nat "RANK;2;SUR:;3;PAGE;?"
              ltac:(lia) Hrun Htr eq_refl) as (j & lf & _ & Hj & Hlf).
  exists st, j, lf. auto.
Defined.
